(** * Jira analytics: time accounting and aggregates of [jira_analytics.py]

    A shallow embedding of the computing parts of class [JiraAnalytics]:
    [get_issue_transitions], [calculate_open_duration],
    [calculate_time_in_status] and the aggregations behind
    [generate_daily_task_trend], [generate_user_task_distribution] and
    [generate_priority_distribution].

    What lies outside the class is a parameter of the development:
    - the HTTP layer ([_make_request]) is the function [changelog], from an
      issue key to the histories of the changelog the tracker answers with;
    - [dateutil.parser.parse] is the function [parse]; a concrete reader of
      ISO-8601 timestamps, [Iso8601.parse], instantiates it in the scenarios;
    - Python's [float] is a carrier with the four operations the code uses
      (class [PyFloat]); it is instantiated by the rationals, where the
      accounting identities are exact, and by binary64. *)

From Stdlib Require Import List String Ascii Bool ZArith QArith Qcanon Lia.
From Stdlib Require Import Floats.
From Stdlib Require Import Permutation Sorted.
Import ListNotations.

Set Implicit Arguments.

Local Open Scope string_scope.
Local Open Scope Z_scope.

(* ================================================================== *)
(** ** Python values the code relies on *)

(** [str.lower] on the ASCII range; the bytes of a multi-byte UTF-8 character
    are left alone. *)
Definition lower_ascii (c : ascii) : ascii :=
  let n := nat_of_ascii c in
  if (65 <=? n)%nat && (n <=? 90)%nat then ascii_of_nat (n + 32) else c.

Fixpoint lower (s : string) : string :=
  match s with
  | EmptyString => EmptyString
  | String c r => String (lower_ascii c) (lower r)
  end.

(** [sub in s] on strings. *)
Fixpoint contains (sub s : string) : bool :=
  String.prefix sub s ||
  match s with
  | EmptyString => false
  | String _ r => contains sub r
  end.

(** Exceptions that reach the caller of the modelled methods. *)
Inductive exn : Type :=
| AttributeError.

Inductive outcome (A : Type) : Type :=
| Returned (a : A)
| Raised (e : exn).
Arguments Returned {A} a.
Arguments Raised {A} e.

(** A member of a JSON object read with [dict.get]: the key may be absent, or
    present with the value [null], or present with a value. *)
Inductive member (A : Type) : Type :=
| Missing
| Null
| Value (a : A).
Arguments Missing {A}.
Arguments Null {A}.
Arguments Value {A} a.

(** Python dictionaries with string keys.  A [dict] keeps its keys in the
    order of their first insertion, which [items()] exposes, so the model is
    an association list: assigning to a present key keeps its place,
    assigning to a new key appends. *)
Module Dict.
Section Ops.
Variable V : Type.

Definition t := list (string * V).

Definition empty : t := [].

Fixpoint get (k : string) (d : t) : option V :=
  match d with
  | [] => None
  | (k', v) :: r => if String.eqb k k' then Some v else get k r
  end.

Definition mem (k : string) (d : t) : bool :=
  match get k d with Some _ => true | None => false end.

Fixpoint set (k : string) (v : V) (d : t) : t :=
  match d with
  | [] => [(k, v)]
  | (k', v') :: r =>
      if String.eqb k k' then (k', v) :: r else (k', v') :: set k v r
  end.

Definition keys (d : t) : list string := map fst d.
Definition values (d : t) : list V := map snd d.
End Ops.
End Dict.

(** [sorted] and [list.sort] are stable.  [precedes y x] says that the key of
    [y] is strictly before the key of [x] in the requested order; an element
    is placed after the elements that precede it and before the others, so
    equal keys keep the order of the input.  Any stable sort returns this
    list. *)
Section StableSort.
Variable A : Type.
Variable precedes : A -> A -> bool.

Fixpoint insert_stable (x : A) (l : list A) : list A :=
  match l with
  | [] => [x]
  | y :: r => if precedes y x then y :: insert_stable x r else x :: y :: r
  end.

Definition stable_sort (l : list A) : list A :=
  fold_right insert_stable [] l.
End StableSort.

(** The slice [l[:n]]. *)
Definition slice_to (A : Type) (n : Z) (l : list A) : list A :=
  if 0 <=? n then firstn (Z.to_nat n) l
  else firstn (Z.to_nat (Z.of_nat (List.length l) + n)) l.

(* ================================================================== *)
(** ** Time *)

(** A [datetime]: the wall-clock reading and the UTC offset of its time zone,
    both in microseconds (the resolution of [datetime]); the reading counts
    from 1970-01-01T00:00:00.  All values of one run are taken to be aware (or
    all naive, offset 0), as Jira emits them. *)
Record datetime : Type := mk_datetime { wall : Z; utcoffset : Z }.

(** A [timedelta], in microseconds. *)
Definition timedelta := Z.

Definition instant (d : datetime) : Z := wall d - utcoffset d.

(** [a - b] on datetimes. *)
Definition dt_sub (a b : datetime) : timedelta := instant a - instant b.

Definition us_per_day : Z := 86400000000.

(** [d.date()], as the number of days since 1970-01-01: the calendar day of
    the wall-clock reading. *)
Definition date_of (d : datetime) : Z := wall d / us_per_day.

(** The arithmetic of Python's [float] that the code uses. *)
Class PyFloat (F : Type) : Type := {
  f_zero : F;                 (* the int 0 a new entry starts from *)
  f_add : F -> F -> F;
  f_div : F -> F -> F;
  f_of_int : Z -> F
}.

Section Durations.
Context {F : Type} {PF : PyFloat F}.

(** [td.total_seconds()]. *)
Definition total_seconds (td : timedelta) : F :=
  f_div (f_of_int td) (f_of_int (10 ^ 6)).

(** [td.total_seconds() / (24 * 3600)]. *)
Definition in_days (td : timedelta) : F :=
  f_div (total_seconds td) (f_of_int (24 * 3600)).
End Durations.

(** Exact arithmetic. *)
#[export] Instance PyFloat_Qc : PyFloat Qc := {
  f_zero := Q2Qc 0;
  f_add := Qcplus;
  f_div := Qcdiv;
  f_of_int := fun z => Q2Qc (inject_Z z)
}.

(** IEEE 754 binary64.  An int of magnitude below 2^53 converts exactly, and
    microsecond counts of timestamps are far below. *)
Definition float_of_int (z : Z) : float :=
  if z <? 0 then PrimFloat.opp (PrimFloat.of_uint63 (Uint63.of_Z (- z)))
  else PrimFloat.of_uint63 (Uint63.of_Z z).

#[export] Instance PyFloat_binary64 : PyFloat float := {
  f_zero := float_of_int 0;
  f_add := PrimFloat.add;
  f_div := PrimFloat.div;
  f_of_int := float_of_int
}.

(** A reader of the ISO-8601 timestamps Jira emits
    ([YYYY-MM-DDTHH:MM:SS], an optional fraction, then [Z] or [+HHMM]), which
    stands for [dateutil.parser.parse] in the concrete scenarios. *)
Module Iso8601.

Definition digit (c : ascii) : option Z :=
  let n := nat_of_ascii c in
  if (48 <=? n)%nat && (n <=? 57)%nat then Some (Z.of_nat (n - 48)) else None.

Fixpoint digits (n : nat) (acc : Z) (s : string) : option (Z * string) :=
  match n, s with
  | O, _ => Some (acc, s)
  | S n', String c r =>
      match digit c with
      | Some d => digits n' (10 * acc + d) r
      | None => None
      end
  | S _, EmptyString => None
  end.

Definition expect (c : ascii) (s : string) : option string :=
  match s with
  | String c' r => if Ascii.eqb c c' then Some r else None
  | EmptyString => None
  end.

(** The digits after the decimal point, as microseconds. *)
Fixpoint fraction (scale acc : Z) (s : string) : Z * string :=
  match s with
  | String c r =>
      match digit c with
      | Some d => fraction (scale / 10) (acc + d * scale) r
      | None => (acc, s)
      end
  | EmptyString => (acc, s)
  end.

(** Days from 1970-01-01 to the given day of the Gregorian calendar. *)
Definition days_from_civil (y m d : Z) : Z :=
  let y' := if m <=? 2 then y - 1 else y in
  let era := y' / 400 in
  let yoe := y' - era * 400 in
  let doy := (153 * (m + (if 2 <? m then -3 else 9)) + 2) / 5 + d - 1 in
  let doe := yoe * 365 + yoe / 4 - yoe / 100 + doy in
  era * 146097 + doe - 719468.

Definition bind {A B : Type} (o : option A) (k : A -> option B) : option B :=
  match o with Some a => k a | None => None end.

Local Notation "' p <- o ;; k" := (bind o (fun p => k))
  (at level 61, p pattern, o at next level, right associativity).

(** The zone suffix, as an offset in seconds. *)
Definition zone (s : string) : option Z :=
  match s with
  | EmptyString => Some 0
  | "Z" => Some 0
  | String c r =>
      let sign := if Ascii.eqb c "+" then Some 1
                  else if Ascii.eqb c "-" then Some (-1) else None in
      ' sg <- sign ;;
      ' (hh, r) <- digits 2 0 r ;;
      let r := match expect ":" r with Some r' => r' | None => r end in
      ' (mm, r) <- digits 2 0 r ;;
      match r with
      | EmptyString => Some (sg * (hh * 3600 + mm * 60))
      | _ => None
      end
  end.

Definition parse_opt (s : string) : option datetime :=
  ' (y, s) <- digits 4 0 s ;;
  ' s <- expect "-" s ;;
  ' (m, s) <- digits 2 0 s ;;
  ' s <- expect "-" s ;;
  ' (d, s) <- digits 2 0 s ;;
  ' s <- expect "T" s ;;
  ' (hh, s) <- digits 2 0 s ;;
  ' s <- expect ":" s ;;
  ' (mi, s) <- digits 2 0 s ;;
  ' s <- expect ":" s ;;
  ' (ss, s) <- digits 2 0 s ;;
  let '(us, s) := match expect "." s with
                  | Some r => fraction 100000 0 r
                  | None => (0, s)
                  end in
  ' off <- zone s ;;
  Some {| wall := (days_from_civil y m d * 86400 + hh * 3600 + mi * 60 + ss)
                  * 10 ^ 6 + us;
          utcoffset := off * 10 ^ 6 |}.

Definition parse (s : string) : datetime :=
  match parse_opt s with
  | Some d => d
  | None => {| wall := 0; utcoffset := 0 |}
  end.

End Iso8601.

(* ================================================================== *)
(** ** The data the tracker answers with *)

(** An entry of [history['items']]. *)
Record Item : Type := mk_item {
  item_field : option string;      (* item.get('field') *)
  fromString : option string;      (* item.get('fromString') *)
  toString : option string         (* item.get('toString') *)
}.

(** An entry of [changelog['histories']]. *)
Record History : Type := mk_history {
  history_created : string;        (* history['created'] *)
  history_items : list Item        (* history.get('items', []) *)
}.

(** The dictionaries [get_issue_transitions] builds.  The entry ['author'],
    which no computation reads, is left out. *)
Record Transition : Type := mk_transition {
  issue_key : string;
  timestamp : string;
  from_status : option string;
  to_status : option string
}.

Record User : Type := mk_user {
  displayName : option string      (* None: no key 'displayName' *)
}.

Record Priority : Type := mk_priority {
  name : option string             (* None: no key 'name' *)
}.

(** An issue, with the members of [issue['fields']] that the code reads. *)
Record Issue : Type := mk_issue {
  key : string;                    (* issue['key'] *)
  created : string;                (* issue['fields']['created'] *)
  updated : string;                (* issue['fields']['updated'] *)
  status_name : string;            (* issue['fields']['status']['name'] *)
  assignee : member User;
  reporter : member User;
  priority : member Priority
}.

(** The truth value of [transition['from_status']]: [None] and the empty
    string are false. *)
Definition truthy (o : option string) : bool :=
  match o with
  | Some s => negb (String.eqb s "")
  | None => false
  end.

(** ['closed' in s or 'resolved' in s or 'done' in s], on the lowered name. *)
Definition names_closed_state (status : string) : bool :=
  let s := lower status in
  contains "closed" s || contains "resolved" s || contains "done" s.

(* ================================================================== *)
(** ** The methods of [JiraAnalytics] *)

(** The state of the loop of [calculate_time_in_status]. *)
Record Accounting (F : Type) : Type := mk_accounting {
  time_in_status : Dict.t F;
  status_start_time : datetime;
  current_status : option string
}.

(** What [generate_daily_task_trend] plots.  Dates are day numbers. *)
Record DailyTrend : Type := mk_trend {
  date_range : list Z;
  created_counts : list Z;
  closed_counts : list Z;
  cumulative_created : list Z;
  cumulative_closed : list Z
}.

(** [min] and [max] of a collection with first element [d]. *)
Definition min_date (d : Z) (l : list Z) : Z := fold_right Z.min d l.
Definition max_date (d : Z) (l : list Z) : Z := fold_right Z.max d l.

(** [pd.date_range(start, end, freq='D')], read back with [.date()]. *)
Definition pd_date_range (start stop : Z) : list Z :=
  map (fun i => start + Z.of_nat i) (seq 0 (Z.to_nat (stop - start + 1))).

(** [l.count(x)]. *)
Definition count (l : list Z) (x : Z) : Z := Z.of_nat (count_occ Z.eq_dec l x).

(** [np.cumsum]. *)
Fixpoint cumsum_from (acc : Z) (l : list Z) : list Z :=
  match l with
  | [] => []
  | x :: r => (acc + x) :: cumsum_from (acc + x) r
  end.

Definition cumsum (l : list Z) : list Z := cumsum_from 0 l.

(** [counts[k]] on a [defaultdict(int)]: 0 for a key not yet there. *)
Definition count_of (k : string) (d : Dict.t Z) : Z :=
  match Dict.get k d with Some n => n | None => 0 end.

(** [counts[k] += 1]. *)
Definition increment (k : string) (d : Dict.t Z) : Dict.t Z :=
  Dict.set k (count_of k d + 1) d.

(** [x and 'displayName' in x], with the name that is then counted. *)
Definition counted_name (x : member User) : option string :=
  match x with
  | Value u => displayName u
  | Missing | Null => None
  end.

(** One round of the loop of [generate_user_task_distribution]. *)
Definition count_users (acc : Dict.t Z * Dict.t Z) (issue : Issue)
  : Dict.t Z * Dict.t Z :=
  let '(assignee_counts, reporter_counts) := acc in
  let assignee_counts :=
    match counted_name (assignee issue) with
    | Some n => increment n assignee_counts
    | None => assignee_counts
    end in
  let reporter_counts :=
    match counted_name (reporter issue) with
    | Some n => increment n reporter_counts
    | None => reporter_counts
    end in
  (assignee_counts, reporter_counts).

(** [sorted(counts.items(), key=lambda x: x[1], reverse=True)[:top_n]]. *)
Definition top (top_n : Z) (counts : Dict.t Z) : list (string * Z) :=
  slice_to top_n (stable_sort (fun y x => snd x <? snd y) counts).

Definition generate_user_task_distribution (issues : list Issue) (top_n : Z)
  : list (string * Z) * list (string * Z) :=
  let '(assignee_counts, reporter_counts) :=
    fold_left count_users issues (Dict.empty Z, Dict.empty Z) in
  (top top_n assignee_counts, top top_n reporter_counts).

(** [issue['fields'].get('priority', {}).get('name', 'Unknown')]: the default
    [{}] stands in for an absent key only; a key present with [null] gives
    [None], which has no [get]. *)
Definition priority_label (issue : Issue) : outcome string :=
  match priority issue with
  | Missing => Returned "Unknown"
  | Null => Raised AttributeError
  | Value p => Returned (match name p with Some n => n | None => "Unknown" end)
  end.

(** The loop of [generate_priority_distribution]; the result is
    [priority_counts]. *)
Fixpoint count_priorities (issues : list Issue) (priority_counts : Dict.t Z)
  : outcome (Dict.t Z) :=
  match issues with
  | [] => Returned priority_counts
  | issue :: rest =>
      match priority_label issue with
      | Returned p => count_priorities rest (increment p priority_counts)
      | Raised e => Raised e
      end
  end.

Definition generate_priority_distribution (issues : list Issue)
  : outcome (Dict.t Z) :=
  count_priorities issues (Dict.empty Z).

Section Tracker.
Context {F : Type} {PF : PyFloat F}.

(** The histories of the changelog of an issue, as the tracker answers;
    [[]] when the request fails. *)
Variable changelog : string -> list History.

(** [dateutil.parser.parse]. *)
Variable parse : string -> datetime.

Definition status_transitions (issue_key : string) (history : History)
  : list Transition :=
  flat_map
    (fun item =>
       match item_field item with
       | Some f =>
           if String.eqb f "status"
           then [ {| issue_key := issue_key;
                     timestamp := history_created history;
                     from_status := fromString item;
                     to_status := toString item |} ]
           else []
       | None => []
       end)
    (history_items history).

Definition get_issue_transitions (issue_key : string) : list Transition :=
  let transitions := flat_map (status_transitions issue_key) (changelog issue_key) in
  stable_sort (fun y x => String.ltb (timestamp y) (timestamp x)) transitions.

Definition calculate_open_duration (issue : Issue) : option F :=
  let created := parse (created issue) in
  let status_name := lower (status_name issue) in
  if negb (contains "closed" status_name)
     && negb (contains "resolved" status_name)
     && negb (contains "done" status_name)
  then None
  else
    let updated := parse (updated issue) in
    Some (in_days (dt_sub updated created)).

(** [if k not in d: d[k] = 0] then [d[k] += x]. *)
Definition accumulate (k : string) (x : F) (d : Dict.t F) : Dict.t F :=
  let d := if Dict.mem k d then d else Dict.set k f_zero d in
  match Dict.get k d with
  | Some v => Dict.set k (f_add v x) d
  | None => d
  end.

(** The body of the loop over the transitions. *)
Definition account (st : Accounting F) (transition : Transition)
  : Accounting F :=
  let transition_time := parse (timestamp transition) in
  let time_in_status :=
    match from_status transition with
    | Some from =>
        if String.eqb from ""
        then time_in_status st
        else accumulate from
               (in_days (dt_sub transition_time (status_start_time st)))
               (time_in_status st)
    | None => time_in_status st
    end in
  {| time_in_status := time_in_status;
     status_start_time := transition_time;
     current_status := to_status transition |}.

Definition calculate_time_in_status (issue : Issue) : outcome (Dict.t F) :=
  let transitions := get_issue_transitions (key issue) in
  match transitions with
  | [] => Returned (Dict.empty F)
  | _ :: _ =>
      let created := parse (created issue) in
      let st := fold_left account transitions
                  {| time_in_status := Dict.empty F;
                     status_start_time := created;
                     current_status := Some (status_name issue) |} in
      match current_status st with
      | None => Raised AttributeError
      | Some current_status =>
          if names_closed_state current_status
          then
            let updated := parse (updated issue) in
            Returned (accumulate current_status
                        (in_days (dt_sub updated (status_start_time st)))
                        (time_in_status st))
          else Returned (time_in_status st)
      end
  end.

Definition generate_daily_task_trend (issues : list Issue)
  : option DailyTrend :=
  let created_dates := map (fun issue => date_of (parse (created issue))) issues in
  let closed_dates :=
    flat_map
      (fun issue =>
         if names_closed_state (status_name issue)
         then [date_of (parse (updated issue))]
         else [])
      issues in
  match (created_dates ++ closed_dates)%list with
  | [] => None
  | d :: all_dates =>
      let date_range := pd_date_range (min_date d all_dates) (max_date d all_dates) in
      let created_counts := map (count created_dates) date_range in
      let closed_counts := map (count closed_dates) date_range in
      Some {| date_range := date_range;
              created_counts := created_counts;
              closed_counts := closed_counts;
              cumulative_created := cumsum created_counts;
              cumulative_closed := cumsum closed_counts |}
  end.

End Tracker.

(* ================================================================== *)
(** ** Vocabulary of the statements *)

(** [sum(d.values())], in exact arithmetic. *)
Definition sum_values (d : Dict.t Qc) : Qc :=
  fold_left Qcplus (Dict.values d) (Q2Qc 0).

(** Every value of the map is at least 0. *)
Definition no_negative_value (d : Dict.t Qc) : Prop :=
  Forall (fun v => (Q2Qc 0 <= v)%Qc) (Dict.values d).

(** The issue with another ['updated'] member. *)
Definition with_updated (u : string) (issue : Issue) : Issue :=
  {| key := key issue; created := created issue; updated := u;
     status_name := status_name issue; assignee := assignee issue;
     reporter := reporter issue; priority := priority issue |}.

Section Vocabulary.
Variable parse : string -> datetime.

Definition time_of (tr : Transition) : datetime := parse (timestamp tr).

(** No transition is earlier than the one before it, the first being no
    earlier than [start]. *)
Fixpoint chronological (start : datetime) (trs : list Transition) : bool :=
  match trs with
  | [] => true
  | tr :: r =>
      (instant start <=? instant (time_of tr)) && chronological (time_of tr) r
  end.

(** The intervals that end at a transition without a usable [from_status],
    which no status is charged for. *)
Fixpoint dropped (start : datetime) (trs : list Transition) : Qc :=
  match trs with
  | [] => Q2Qc 0
  | tr :: r =>
      ((if truthy (from_status tr) then Q2Qc 0
        else in_days (dt_sub (time_of tr) start))
       + dropped (time_of tr) r)%Qc
  end.

(** The status and the time the loop ends with. *)
Definition status_after (issue : Issue) (trs : list Transition) : option string :=
  last (map to_status trs) (Some (status_name issue)).

Definition time_after (issue : Issue) (trs : list Transition) : datetime :=
  last (map time_of trs) (parse (created issue)).
End Vocabulary.

(** [x] comes before [y] in [l]. *)
Definition before (A : Type) (x y : A) (l : list A) : Prop :=
  exists l1 l2, l = (l1 ++ x :: l2)%list /\ In y l2.

(** The position of the first issue that counts for user [u], under the
    reading [who] of its assignee or reporter. *)
Fixpoint first_encounter (who : Issue -> member User) (u : string)
  (issues : list Issue) : option nat :=
  match issues with
  | [] => None
  | issue :: rest =>
      match counted_name (who issue) with
      | Some n =>
          if String.eqb n u then Some O
          else option_map S (first_encounter who u rest)
      | None => option_map S (first_encounter who u rest)
      end
  end.

(** The dates an issue set shows: every creation date, and the update date of
    every issue in a closed state. *)
Definition observed (parse : string -> datetime) (issues : list Issue) (d : Z) : Prop :=
  exists issue, In issue issues /\
    (d = date_of (parse (created issue)) \/
     (names_closed_state (status_name issue) = true /\
      d = date_of (parse (updated issue)))).

(** The number of issues created, and closed, on day [d]. *)
Definition created_on (parse : string -> datetime) (issues : list Issue) (d : Z) : Z :=
  Z.of_nat (List.length
    (filter (fun issue => date_of (parse (created issue)) =? d) issues)).

Definition closed_on (parse : string -> datetime) (issues : list Issue) (d : Z) : Z :=
  Z.of_nat (List.length
    (filter (fun issue => names_closed_state (status_name issue)
                          && (date_of (parse (updated issue)) =? d)) issues)).

(** A series that never decreases. *)
Definition non_decreasing (l : list Z) : Prop :=
  forall i j x y, (i <= j)%nat -> nth_error l i = Some x -> nth_error l j = Some y -> x <= y.

(** The counts one side of the loop of [generate_user_task_distribution]
    builds, [who] being [assignee] or [reporter]. *)
Definition tally (who : Issue -> member User) (issues : list Issue)
  (counts : Dict.t Z) : Dict.t Z :=
  fold_left
    (fun counts issue =>
       match counted_name (who issue) with
       | Some n => increment n counts
       | None => counts
       end)
    issues counts.

(** Users with the same count stand in a ranking in the order in which the
    issue list first shows them. *)
Definition ties_in_encounter_order (who : Issue -> member User)
  (issues : list Issue) (ranking : list (string * Z)) : Prop :=
  forall u v c, In (u, c) ranking -> In (v, c) ranking ->
    (before (u, c) (v, c) ranking <->
     exists i j, first_encounter who u issues = Some i
                 /\ first_encounter who v issues = Some j /\ (i < j)%nat).

(** The issue is counted under [label]. *)
Definition labelled (label : string) (issue : Issue) : bool :=
  match priority_label issue with
  | Returned l => String.eqb l label
  | Raised _ => false
  end.

(* ================================================================== *)
(** ** Scenarios *)

Module Scenario.

(** The issue of the worked example and its changelog. *)
Definition X : Issue :=
  {| key := "X-1";
     created := "2024-01-01T00:00:00Z";
     updated := "2024-01-10T00:00:00Z";
     status_name := "Done";
     assignee := Null; reporter := Missing; priority := Missing |}.

Definition status_change (at_time from to : string) : History :=
  {| history_created := at_time;
     history_items := [ {| item_field := Some "status";
                           fromString := Some from;
                           toString := Some to |} ] |}.

Definition log_X (k : string) : list History :=
  if String.eqb k "X-1"
  then [ status_change "2024-01-03T00:00:00Z" "Open" "In Progress";
         status_change "2024-01-10T00:00:00Z" "In Progress" "Done" ]
  else [].

(** A tracker that has no history for any issue. *)
Definition no_log (k : string) : list History := [].

(** The snapshot says "Done", the changelog ends at "In Progress". *)
Definition log_stale (k : string) : list History :=
  [ status_change "2024-01-03T00:00:00Z" "Open" "In Progress" ].

(** The second change carries an empty [fromString]. *)
Definition log_blank (k : string) : list History :=
  [ status_change "2024-01-03T00:00:00Z" "Open" "In Progress";
    status_change "2024-01-10T00:00:00Z" "" "Done" ].

(** The first change is dated before the creation of the issue. *)
Definition log_early (k : string) : list History :=
  [ status_change "2023-12-30T00:00:00Z" "Open" "In Progress";
    status_change "2024-01-10T00:00:00Z" "In Progress" "Done" ].

(** Two changes in the hour a clock is set back: the texts are in order,
    the instants are not (08:30 and 09:10 UTC). *)
Definition log_autumn (k : string) : list History :=
  [ status_change "2024-11-03T01:30:00.000-0700" "Open" "In Progress";
    status_change "2024-11-03T01:10:00.000-0800" "In Progress" "Done" ].

Definition W : Issue :=
  {| key := "W-1";
     created := "2024-11-01T00:00:00.000-0700";
     updated := "2024-11-03T01:10:00.000-0800";
     status_name := "Done";
     assignee := Missing; reporter := Missing; priority := Missing |}.

(** An open issue whose last update is its last status change. *)
Definition Y : Issue :=
  {| key := "Y-1";
     created := "2024-01-01T00:00:00Z";
     updated := "2024-01-03T00:00:00Z";
     status_name := "In Progress";
     assignee := Missing; reporter := Missing; priority := Missing |}.

Definition log_Y (k : string) : list History :=
  [ status_change "2024-01-03T00:00:00Z" "Open" "In Progress" ].

(** A closed issue updated one hour before its creation stamp. *)
Definition Z1 : Issue :=
  {| key := "Z-1";
     created := "2024-01-01T12:00:00Z";
     updated := "2024-01-01T11:00:00Z";
     status_name := "Resolved";
     assignee := Missing; reporter := Missing; priority := Missing |}.

Definition person (n : string) : member User :=
  Value {| displayName := Some n |}.

Definition task (k : string) (a r : member User) (p : member Priority) : Issue :=
  {| key := k;
     created := "2024-01-01T00:00:00Z";
     updated := "2024-01-02T00:00:00Z";
     status_name := "Open";
     assignee := a; reporter := r; priority := p |}.

Definition board : list Issue :=
  [ task "T-1" (person "ann") (person "eve") Missing;
    task "T-2" (person "bob") (person "eve") (Value {| name := Some "Major" |});
    task "T-3" (person "cid") Null (Value {| name := None |});
    task "T-4" (person "bob") (person "ann") Missing;
    task "T-5" (person "cid") (person "ann") Missing ].

(** An issue without priority, as the tracker sends it: the member is
    there and holds [null]. *)
Definition unprioritised : list Issue :=
  [ task "T-6" (person "ann") (person "eve") Missing;
    task "T-7" (person "bob") (person "eve") Null ].

End Scenario.

(* ================================================================== *)
(** ** The other methods *)

(** [s.rstrip('/')]. *)
Fixpoint rstrip_slash (s : string) : string :=
  match s with
  | EmptyString => EmptyString
  | String c r =>
      let r' := rstrip_slash r in
      if String.eqb r' "" && Ascii.eqb c "/" then EmptyString else String c r'
  end.

(** What [__init__] keeps of its arguments. *)
Record JiraClient : Type := mk_client {
  jira_url : string;
  auth : string * string
}.

Definition init (url username api_token : string) : JiraClient :=
  {| jira_url := rstrip_slash url; auth := (username, api_token) |}.

(** The address [_make_request] asks for: [f"{self.jira_url}{endpoint}"]. *)
Definition request_url (self : JiraClient) (endpoint : string) : string :=
  jira_url self ++ endpoint.

(** [os.getenv(k, default)] on an environment. *)
Definition getenv (env : string -> option string) (k default : string) : string :=
  match env k with Some v => v | None => default end.

(** The client and the project [main] settles on. *)
Definition main_setup (env : string -> option string) : JiraClient * string :=
  let url := getenv env "JIRA_URL" "https://issues.apache.org/jira" in
  let username := getenv env "JIRA_USERNAME" "" in
  let api_token := getenv env "JIRA_API_TOKEN" "" in
  let jira_analytics :=
    if String.eqb api_token "" then init url "" "" else init url username api_token in
  (jira_analytics, getenv env "JIRA_PROJECT_KEY" "KAFKA").

(** The answer to a search request; [None] stands for a key that is not in
    the answer, as in the [{}] that [_make_request] gives on a failure. *)
Record SearchResponse : Type := mk_response {
  response_total : option Z;            (* response.get('total', 0) *)
  response_issues : option (list Issue) (* response.get('issues', []) *)
}.

Section Search.
(** The tracker's answer to a search with the given [jql], [maxResults] and
    [startAt] ([None] when the request does not send it). *)
Variable search : string -> Z -> option Z -> SearchResponse.

Definition jql_of (project_key : string) : string :=
  "project = '" ++ project_key ++ "' ORDER BY created DESC".

(** The [while] loop of [get_issues_by_project]; [None] when the rounds
    allowed by [fuel] do not end it. *)
Fixpoint fetch_pages (fuel : nat) (jql : string) (max_results total_issues : Z)
  (start_at : Z) (all_issues : list Issue) : option (list Issue) :=
  match fuel with
  | O => None
  | S fuel' =>
      if start_at <? total_issues
      then
        let response := search jql max_results (Some start_at) in
        let issues := match response_issues response with
                      | Some l => l
                      | None => []
                      end in
        fetch_pages fuel' jql max_results total_issues
          (start_at + max_results) (all_issues ++ issues)%list
      else Some all_issues
  end.

Definition get_issues_by_project (fuel : nat) (project_key : string)
  (max_results : Z) : option (list Issue) :=
  let jql := jql_of project_key in
  let response := search jql 0 None in
  let total_issues := match response_total response with
                      | Some t => t
                      | None => 0
                      end in
  fetch_pages fuel jql max_results total_issues 0 [].
End Search.

(** The issues [run_full_analysis] hands to the reports on closed issues. *)
Definition closed_issues (issues : list Issue) : list Issue :=
  filter (fun issue => names_closed_state (status_name issue)) issues.

(** [issue['fields'].get('timetracking', {})] and its member. *)
Record TimeTracking : Type := mk_timetracking {
  timeSpentSeconds : option Z      (* None: no key 'timeSpentSeconds' *)
}.

(** An issue together with its member ['timetracking']. *)
Record TimedIssue : Type := mk_timed {
  fields_of : Issue;
  timetracking : member TimeTracking
}.

(** ['timeSpentSeconds' in None]. *)
Inductive type_error : Type :=
| TypeError.

Section Reports.
Context {F : Type} {PF : PyFloat F}.
Variable changelog : string -> list History.
Variable parse : string -> datetime.

Definition get_all_transitions_for_project (project_key : string)
  (issues : list Issue) : list Transition :=
  flat_map (fun issue => get_issue_transitions changelog (key issue)) issues.

(** The list [durations] of [generate_open_duration_histogram]. *)
Definition open_durations (issues : list Issue) : list F :=
  flat_map
    (fun issue =>
       match calculate_open_duration parse issue with
       | Some duration => [duration]
       | None => []
       end)
    issues.

(** What the histogram is drawn from; [None] when there is nothing to draw. *)
Definition generate_open_duration_histogram (issues : list Issue)
  : option (list F) :=
  match open_durations issues with
  | [] => None
  | durations => Some durations
  end.

(** [all_status_times[status].append(time_spent)] on a [defaultdict(list)]. *)
Definition append_sample (all_status_times : Dict.t (list F))
  (item : string * F) : Dict.t (list F) :=
  let '(status, time_spent) := item in
  Dict.set status
    ((match Dict.get status all_status_times with Some l => l | None => [] end)
       ++ [time_spent])%list
    all_status_times.

(** The first loop of [generate_status_time_distribution]; the result is
    [all_status_times]. *)
Fixpoint collect_status_times (issues : list Issue)
  (all_status_times : Dict.t (list F)) : outcome (Dict.t (list F)) :=
  match issues with
  | [] => Returned all_status_times
  | issue :: rest =>
      match calculate_time_in_status changelog parse issue with
      | Returned status_times =>
          collect_status_times rest
            (fold_left append_sample status_times all_status_times)
      | Raised e => Raised e
      end
  end.

Definition generate_status_time_distribution (issues : list Issue)
  : outcome (Dict.t (list F)) :=
  collect_status_times issues (Dict.empty (list F)).

(** One round of the loop of [generate_logged_time_histogram]. *)
Definition log_time (user_logged_times : Dict.t F) (issue : TimedIssue)
  : Dict.t F + type_error :=
  match timetracking issue with
  | Null => inr TypeError
  | Missing => inl user_logged_times
  | Value t =>
      match timeSpentSeconds t with
      | Some time_spent_seconds =>
          let time_spent_hours :=
            f_div (f_of_int time_spent_seconds) (f_of_int 3600) in
          match counted_name (assignee (fields_of issue)) with
          | Some n =>
              inl (Dict.set n
                     (f_add (match Dict.get n user_logged_times with
                             | Some v => v
                             | None => f_zero
                             end) time_spent_hours)
                     user_logged_times)
          | None => inl user_logged_times
          end
      | None => inl user_logged_times
      end
  end.

Fixpoint log_times (issues : list TimedIssue) (user_logged_times : Dict.t F)
  : Dict.t F + type_error :=
  match issues with
  | [] => inl user_logged_times
  | issue :: rest =>
      match log_time user_logged_times issue with
      | inl d => log_times rest d
      | inr e => inr e
      end
  end.

(** The result is [user_logged_times]. *)
Definition generate_logged_time_histogram (issues : list TimedIssue)
  : Dict.t F + type_error :=
  log_times issues (Dict.empty F).
End Reports.

(* ================================================================== *)
(** ** Vocabulary of the further statements *)

(** The issue with another status name. *)
Definition with_status (s : string) (issue : Issue) : Issue :=
  {| key := key issue; created := created issue; updated := updated issue;
     status_name := s; assignee := assignee issue;
     reporter := reporter issue; priority := priority issue |}.

(** The value a map holds for a status, 0 for a status it does not have. *)
Definition value_of (k : string) (d : Dict.t Qc) : Qc :=
  match Dict.get k d with Some v => v | None => Q2Qc 0 end.

(** The intervals that end at a transition out of status [k]: from the
    transition before it, or from [start], to that transition. *)
Fixpoint charged (parse : string -> datetime) (k : string) (start : datetime)
  (trs : list Transition) : Qc :=
  match trs with
  | [] => Q2Qc 0
  | tr :: r =>
      ((match from_status tr with
        | Some from =>
            if String.eqb from k && negb (String.eqb from "")
            then in_days (dt_sub (time_of parse tr) start)
            else Q2Qc 0
        | None => Q2Qc 0
        end)
       + charged parse k (time_of parse tr) r)%Qc
  end.

(** The samples a [defaultdict(list)] holds for a status. *)
Definition samples_of (F : Type) (s : string) (all : Dict.t (list F)) : list F :=
  match Dict.get s all with Some l => l | None => [] end.

(** The number of members of [l] from [a] to [b]. *)
Definition within (l : list Z) (a b : Z) : Z :=
  Z.of_nat (List.length (filter (fun x => (a <=? x) && (x <=? b)) l)).

(** The number of issues created, and closed, on day [d] or before. *)
Definition created_by (parse : string -> datetime) (issues : list Issue) (d : Z) : Z :=
  Z.of_nat (List.length
    (filter (fun issue => date_of (parse (created issue)) <=? d) issues)).

Definition closed_by (parse : string -> datetime) (issues : list Issue) (d : Z) : Z :=
  Z.of_nat (List.length
    (filter (fun issue => names_closed_state (status_name issue)
                          && (date_of (parse (updated issue)) <=? d)) issues)).

(** The number of issues that count for user [u] under the reading [who]. *)
Definition tasks_of (who : Issue -> member User) (u : string)
  (issues : list Issue) : Z :=
  Z.of_nat (List.length
    (filter (fun issue => match counted_name (who issue) with
                          | Some n => String.eqb n u
                          | None => false
                          end) issues)).

(** What holds of a ranking drawn from an issue list. *)
Definition ranked_by_count (ranking : list (string * Z)) : Prop :=
  StronglySorted (fun a b => snd b <= snd a) ranking.

Definition entries_are_task_counts (who : Issue -> member User)
  (issues : list Issue) (ranking : list (string * Z)) : Prop :=
  NoDup (map fst ranking)
  /\ forall u c, In (u, c) ranking -> c = tasks_of who u issues /\ 1 <= c.

Definition every_user_ranked (who : Issue -> member User)
  (issues : list Issue) (ranking : list (string * Z)) : Prop :=
  forall u, 1 <= tasks_of who u issues -> In (u, tasks_of who u issues) ranking.

(** Seconds as hours, exactly. *)
Definition hours (seconds : Z) : Qc := Q2Qc (seconds # 3600).

(** The hours logged on the issues assigned to user [u]. *)
Fixpoint logged_hours (u : string) (issues : list TimedIssue) : Qc :=
  match issues with
  | [] => Q2Qc 0
  | issue :: rest =>
      ((match timetracking issue, counted_name (assignee (fields_of issue)) with
        | Value t, Some n =>
            match timeSpentSeconds t with
            | Some seconds => if String.eqb n u then hours seconds else Q2Qc 0
            | None => Q2Qc 0
            end
        | _, _ => Q2Qc 0
        end)
       + logged_hours u rest)%Qc
  end.

(** [sum(counts.values())]. *)
Definition sum_counts (d : Dict.t Z) : Z := fold_right Z.add 0 (Dict.values d).

(** [response.get('issues', [])] and [response.get('total', 0)]. *)
Definition issues_of (response : SearchResponse) : list Issue :=
  match response_issues response with Some l => l | None => [] end.

Definition total_of (response : SearchResponse) : Z :=
  match response_total response with Some t => t | None => 0 end.

(** The number of pages that cover [total] issues, [max_results] to a page. *)
Definition rounds (total max_results : Z) : nat :=
  Z.to_nat ((total + max_results - 1) / max_results).

(** The pages asked for at [start], [start + max_results], ... joined. *)
Definition pages (search : string -> Z -> option Z -> SearchResponse)
  (jql : string) (max_results start : Z) (n : nat) : list Issue :=
  flat_map
    (fun i => issues_of (search jql max_results
                           (Some (start + Z.of_nat i * max_results))))
    (seq 0 n).

(** A tracker that holds the issues [all] and answers a page request with
    at most [cap] issues from the place asked for. *)
Definition tracker (all : list Issue) (cap : Z) (jql : string)
  (max_results : Z) (start_at : option Z) : SearchResponse :=
  {| response_total := Some (Z.of_nat (List.length all));
     response_issues :=
       match start_at with
       | Some s => Some (firstn (Z.to_nat (Z.min max_results cap))
                                (skipn (Z.to_nat s) all))
       | None => Some []
       end |}.

(** ["/"] repeated. *)
Fixpoint slashes (n : nat) : string :=
  match n with
  | O => EmptyString
  | S n' => String "/" (slashes n')
  end.

(** A capital letter of the ASCII range. *)
Definition is_capital (c : ascii) : bool :=
  let n := nat_of_ascii c in (65 <=? n)%nat && (n <=? 90)%nat.

(** The same character, or the same letter in the other case: a capital
    letter and the character 32 places after it. *)
Definition same_letter (c d : ascii) : bool :=
  Ascii.eqb c d
  || (is_capital c && (nat_of_ascii d =? nat_of_ascii c + 32)%nat)
  || (is_capital d && (nat_of_ascii c =? nat_of_ascii d + 32)%nat).

(** Two words of the same length that agree letter by letter, whatever the
    case of each letter. *)
Fixpoint same_word (w v : string) : bool :=
  match w, v with
  | EmptyString, EmptyString => true
  | String c w', String d v' => same_letter c d && same_word w' v'
  | _, _ => false
  end.

Fixpoint no_capital (s : string) : bool :=
  match s with
  | EmptyString => true
  | String c r => negb (is_capital c) && no_capital r
  end.

(** The status name has "closed", "resolved" or "done" somewhere in it, in
    any mix of capital and small letters. *)
Definition closed_by_name (status : string) : Prop :=
  exists kw a w b,
    In kw ["closed"; "resolved"; "done"]
    /\ status = a ++ w ++ b /\ same_word w kw = true.

(** Further scenarios. *)
Module Cases.

(** One history with two status items, hence one stamp for both. *)
Definition log_twice (k : string) : list History :=
  [ {| history_created := "2024-01-03T00:00:00Z";
       history_items :=
         [ {| item_field := Some "status"; fromString := Some "Open";
              toString := Some "Review" |};
           {| item_field := Some "assignee"; fromString := None;
              toString := Some "ann" |};
           {| item_field := Some "status"; fromString := Some "Review";
              toString := Some "Done" |} ] |} ].

Definition first_change : Transition :=
  mk_transition "X-1" "2024-01-03T00:00:00Z" (Some "Open") (Some "Review").

Definition second_change : Transition :=
  mk_transition "X-1" "2024-01-03T00:00:00Z" (Some "Review") (Some "Done").

(** A changelog whose last status item has no [toString]. *)
Definition log_open_end (k : string) : list History :=
  [ {| history_created := "2024-01-03T00:00:00Z";
       history_items :=
         [ {| item_field := Some "status"; fromString := Some "Open";
              toString := None |} ] |} ].

(** Issues with their time tracking: two of "ann", one without assignee,
    one with an empty time tracking, one without the member. *)
Definition timesheet : list TimedIssue :=
  [ {| fields_of := Scenario.task "T-1" (Scenario.person "ann") Missing Missing;
       timetracking := Value {| timeSpentSeconds := Some 5400 |} |};
    {| fields_of := Scenario.task "T-2" Null Missing Missing;
       timetracking := Value {| timeSpentSeconds := Some 7200 |} |};
    {| fields_of := Scenario.task "T-3" (Scenario.person "ann") Missing Missing;
       timetracking := Value {| timeSpentSeconds := Some 1800 |} |};
    {| fields_of := Scenario.task "T-4" (Scenario.person "bob") Missing Missing;
       timetracking := Value {| timeSpentSeconds := None |} |};
    {| fields_of := Scenario.task "T-5" (Scenario.person "bob") Missing Missing;
       timetracking := Missing |} ].

(** The same with an issue whose time tracking is null. *)
Definition untracked : TimedIssue :=
  {| fields_of := Scenario.task "T-6" (Scenario.person "cid") Missing Missing;
     timetracking := Null |}.

(** A tracker with two issues. *)
Definition log_two (k : string) : list History :=
  if String.eqb k "X-1" then Scenario.log_X k
  else if String.eqb k "Y-1" then Scenario.log_Y k
  else [].

End Cases.

(* ================================================================== *)
(** ** Strings *)

Lemma prefix_iff (a s : string) :
  String.prefix a s = true <-> exists b, s = a ++ b.
Proof.
  revert s. induction a as [|c a IH]; intros s.
  - split; [intros _; exists s; reflexivity | intros _; destruct s; reflexivity].
  - destruct s as [|c' s]; cbn.
    + split; [discriminate | intros [b Hb]; discriminate].
    + destruct (Ascii.ascii_dec c c') as [->|Hne].
      * rewrite IH. split; intros [b Hb]; exists b.
        -- now rewrite Hb.
        -- now injection Hb.
      * split; [discriminate | intros [b Hb]; injection Hb; congruence].
Qed.

(** [contains] is the substring test. *)
Lemma contains_iff (sub s : string) :
  contains sub s = true <-> exists a b, s = a ++ sub ++ b.
Proof.
  induction s as [|c s IH]; cbn [contains]; rewrite orb_true_iff, prefix_iff.
  - split.
    + intros [[b Hb]|H]; [exists "", b; exact Hb | discriminate].
    + intros [a [b Hab]]. left. destruct a; [exists b; exact Hab | discriminate].
  - rewrite IH. split.
    + intros [[b Hb]|[a [b Hab]]].
      * exists "", b. exact Hb.
      * exists (String c a), b. cbn. now rewrite Hab.
    + intros [a [b Hab]]. destruct a as [|c' a].
      * left. exists b. exact Hab.
      * right. exists a, b. cbn in Hab. now injection Hab.
Qed.

(** The test of [calculate_open_duration] is the negation of the test the
    other methods make. *)
Lemma not_closed_test (s : string) :
  negb (contains "closed" s) && negb (contains "resolved" s)
  && negb (contains "done" s)
  = negb (contains "closed" s || contains "resolved" s || contains "done" s).
Proof.
  destruct (contains "closed" s), (contains "resolved" s), (contains "done" s);
    reflexivity.
Qed.

(* ================================================================== *)
(** ** Durations in exact arithmetic *)

Lemma in_days_exact (z : Z) : in_days (F := Qc) z = Q2Qc (z # 86400000000).
Proof.
  unfold in_days, total_seconds. cbn [f_div f_of_int PyFloat_Qc].
  apply Qc_is_canon. unfold Qcdiv, Qcmult, Qcinv. cbn [this Q2Qc].
  rewrite !Qred_correct.
  change (10 ^ 6) with 1000000. change (24 * 3600) with 86400.
  unfold Qeq, Qmult, Qinv, inject_Z. cbn. lia.
Qed.

Lemma in_days_add (a b : Z) :
  in_days (F := Qc) (a + b) = (in_days a + in_days b)%Qc.
Proof.
  rewrite !in_days_exact. apply Qc_is_canon.
  unfold Qcplus. cbn [this Q2Qc]. rewrite !Qred_correct.
  unfold Qeq, Qplus. cbn. lia.
Qed.

Lemma in_days_zero : in_days (F := Qc) 0 = Q2Qc 0.
Proof. rewrite in_days_exact. now apply Qc_is_canon. Qed.

Lemma in_days_lt (a b : Z) : a < b -> (in_days (F := Qc) a < in_days b)%Qc.
Proof.
  intros Hab. rewrite !in_days_exact. unfold Qclt. cbn [this Q2Qc].
  rewrite !Qred_correct. unfold Qlt. cbn. lia.
Qed.

Lemma in_days_le (a b : Z) : a <= b -> (in_days (F := Qc) a <= in_days b)%Qc.
Proof.
  intros Hab. rewrite !in_days_exact. unfold Qcle. cbn [this Q2Qc].
  rewrite !Qred_correct. unfold Qle. cbn. lia.
Qed.

Lemma in_days_negative (z : Z) : z < 0 -> (in_days (F := Qc) z < Q2Qc 0)%Qc.
Proof. intros Hz. rewrite <- in_days_zero. now apply in_days_lt. Qed.

Lemma in_days_nonneg (z : Z) : 0 <= z -> (Q2Qc 0 <= in_days (F := Qc) z)%Qc.
Proof. intros Hz. rewrite <- in_days_zero. now apply in_days_le. Qed.

(** Consecutive intervals add up. *)
Lemma in_days_chain (a b c : datetime) :
  (in_days (F := Qc) (dt_sub b a) + in_days (dt_sub c b))%Qc = in_days (dt_sub c a).
Proof.
  rewrite <- in_days_add. f_equal. unfold dt_sub. lia.
Qed.

(* ================================================================== *)
(** ** Dictionaries *)

Lemma fold_plus_shift (l : list Qc) (a : Qc) :
  fold_left Qcplus l a = (a + fold_left Qcplus l (Q2Qc 0))%Qc.
Proof.
  revert a. induction l as [|x l IH]; intros a; cbn.
  - ring.
  - rewrite IH, (IH (Q2Qc 0 + x)%Qc). ring.
Qed.

Lemma sum_values_cons (k : string) (v : Qc) (d : Dict.t Qc) :
  sum_values ((k, v) :: d) = (v + sum_values d)%Qc.
Proof.
  unfold sum_values, Dict.values. cbn [map fold_left snd].
  rewrite fold_plus_shift. ring.
Qed.

Lemma sum_values_set_new (k : string) (v : Qc) (d : Dict.t Qc) :
  Dict.get k d = None -> sum_values (Dict.set k v d) = (sum_values d + v)%Qc.
Proof.
  induction d as [|[k' v'] d IH]; cbn [Dict.get Dict.set]; intros Hget.
  - rewrite sum_values_cons. ring.
  - destruct (String.eqb k k'); [discriminate|].
    rewrite !sum_values_cons, IH by exact Hget. ring.
Qed.

Lemma sum_values_set_old (k : string) (v v0 : Qc) (d : Dict.t Qc) :
  Dict.get k d = Some v0 ->
  sum_values (Dict.set k v d) = (sum_values d - v0 + v)%Qc.
Proof.
  induction d as [|[k' v'] d IH]; cbn [Dict.get Dict.set]; intros Hget.
  - discriminate.
  - destruct (String.eqb k k').
    + injection Hget as ->. rewrite !sum_values_cons. ring.
    + rewrite !sum_values_cons, IH by exact Hget. ring.
Qed.

Lemma get_set_same (V : Type) (k : string) (v : V) (d : Dict.t V) :
  Dict.get k (Dict.set k v d) = Some v.
Proof.
  induction d as [|[k' v'] d IH]; cbn.
  - now rewrite String.eqb_refl.
  - destruct (String.eqb k k') eqn:E; cbn; rewrite E; [reflexivity | exact IH].
Qed.

(** Charging [x] to a status raises the total by [x]. *)
Lemma sum_values_accumulate (k : string) (x : Qc) (d : Dict.t Qc) :
  sum_values (accumulate k x d) = (sum_values d + x)%Qc.
Proof.
  unfold accumulate, Dict.mem.
  destruct (Dict.get k d) as [v|] eqn:Hget.
  - rewrite Hget. rewrite sum_values_set_old with (v0 := v) by exact Hget.
    cbn [f_add PyFloat_Qc]. ring.
  - rewrite get_set_same.
    rewrite sum_values_set_old with (v0 := f_zero) by apply get_set_same.
    rewrite sum_values_set_new by exact Hget.
    cbn [f_add f_zero PyFloat_Qc]. ring.
Qed.

Lemma values_set_nonneg (k : string) (v : Qc) (d : Dict.t Qc) :
  (Q2Qc 0 <= v)%Qc -> no_negative_value d -> no_negative_value (Dict.set k v d).
Proof.
  unfold no_negative_value. intros Hv.
  induction d as [|[k' v'] d IH]; cbn; intros Hd.
  - constructor; [exact Hv | constructor].
  - inversion Hd; subst. destruct (String.eqb k k'); cbn.
    + constructor; assumption.
    + constructor; [assumption | now apply IH].
Qed.

Lemma get_nonneg (k : string) (v : Qc) (d : Dict.t Qc) :
  no_negative_value d -> Dict.get k d = Some v -> (Q2Qc 0 <= v)%Qc.
Proof.
  unfold no_negative_value.
  induction d as [|[k' v'] d IH]; cbn; intros Hd Hget; [discriminate|].
  inversion Hd; subst. destruct (String.eqb k k').
  - now injection Hget as <-.
  - now apply IH.
Qed.

Lemma accumulate_nonneg (k : string) (x : Qc) (d : Dict.t Qc) :
  (Q2Qc 0 <= x)%Qc -> no_negative_value d -> no_negative_value (accumulate k x d).
Proof.
  intros Hx Hd. unfold accumulate, Dict.mem.
  assert (Hsum : forall v : Qc, (Q2Qc 0 <= v)%Qc -> (Q2Qc 0 <= f_add v x)%Qc).
  { intros v Hv. cbn [f_add PyFloat_Qc]. replace (Q2Qc 0) with (Q2Qc 0 + Q2Qc 0)%Qc by ring.
    now apply Qcplus_le_compat. }
  destruct (Dict.get k d) as [v|] eqn:Hget.
  - rewrite Hget. apply values_set_nonneg; [|exact Hd].
    apply Hsum. now apply get_nonneg with (k := k) (d := d).
  - rewrite get_set_same. apply values_set_nonneg.
    + apply Hsum. apply Qcle_refl.
    + apply values_set_nonneg; [apply Qcle_refl | exact Hd].
Qed.

(* ================================================================== *)
(** ** The loop of [calculate_time_in_status] *)

Lemma last_cons (A : Type) (x d : A) (l : list A) :
  last (x :: l) d = last l x.
Proof.
  revert x d. induction l as [|y l IH]; intros x d; [reflexivity|].
  change (last (x :: y :: l) d) with (last (y :: l) d).
  now rewrite (IH y d), (IH y x).
Qed.

Section Loop.
Variable parse : string -> datetime.

Lemma loop_status (F : Type) (PF : PyFloat F) (trs : list Transition)
  (st : Accounting F) :
  current_status (fold_left (account parse) trs st)
  = last (map to_status trs) (current_status st).
Proof.
  revert st. induction trs as [|tr trs IH]; intros st; [reflexivity|].
  cbn [fold_left map]. rewrite IH, last_cons. reflexivity.
Qed.

Lemma loop_time (F : Type) (PF : PyFloat F) (trs : list Transition)
  (st : Accounting F) :
  status_start_time (fold_left (account parse) trs st)
  = last (map (time_of parse) trs) (status_start_time st).
Proof.
  revert st. induction trs as [|tr trs IH]; intros st; [reflexivity|].
  cbn [fold_left map]. rewrite IH, last_cons. reflexivity.
Qed.

(** What one round adds to the total. *)
Lemma account_sum (st : Accounting Qc) (tr : Transition) :
  sum_values (time_in_status (account parse st tr))
  = (sum_values (time_in_status st)
     + (if truthy (from_status tr)
        then in_days (dt_sub (time_of parse tr) (status_start_time st))
        else Q2Qc 0))%Qc.
Proof.
  unfold account, truthy, time_of. cbn [time_in_status].
  destruct (from_status tr) as [from|].
  - destruct (String.eqb from ""); cbn [negb].
    + ring.
    + apply sum_values_accumulate.
  - ring.
Qed.

(** The total after the loop: the time from the start to the last transition,
    less the dropped intervals. *)
Lemma loop_sum (trs : list Transition) (st : Accounting Qc) :
  sum_values (time_in_status (fold_left (account parse) trs st))
  = (sum_values (time_in_status st)
     + in_days (dt_sub (last (map (time_of parse) trs) (status_start_time st))
                       (status_start_time st))
     - dropped parse (status_start_time st) trs)%Qc.
Proof.
  revert st. induction trs as [|tr trs IH]; intros st.
  - cbn [fold_left map last dropped].
    replace (dt_sub (status_start_time st) (status_start_time st)) with 0
      by (unfold dt_sub; lia).
    rewrite in_days_zero. ring.
  - cbn [fold_left]. rewrite IH, account_sum.
    replace (last (map (time_of parse) (tr :: trs)) (status_start_time st))
      with (last (map (time_of parse) trs) (time_of parse tr))
      by (cbn [map]; now rewrite last_cons).
    cbn [dropped]. change (status_start_time (account parse st tr)) with (time_of parse tr).
    rewrite <- (in_days_chain (status_start_time st) (time_of parse tr)
                  (last (map (time_of parse) trs) (time_of parse tr))).
    destruct (truthy (from_status tr)); ring.
Qed.

Lemma dropped_nothing (start : datetime) (trs : list Transition) :
  Forall (fun tr => truthy (from_status tr) = true) trs ->
  dropped parse start trs = Q2Qc 0.
Proof.
  intros Hall. revert start. induction Hall as [|tr trs Htr _ IH]; intros start.
  - reflexivity.
  - cbn [dropped]. rewrite Htr, IH. ring.
Qed.

Lemma dropped_nonneg (start : datetime) (trs : list Transition) :
  chronological parse start trs = true ->
  (Q2Qc 0 <= dropped parse start trs)%Qc.
Proof.
  revert start. induction trs as [|tr trs IH]; intros start Hord.
  - apply Qcle_refl.
  - cbn [chronological] in Hord. apply andb_true_iff in Hord as [H1 H2].
    apply Z.leb_le in H1. cbn [dropped].
    replace (Q2Qc 0) with (Q2Qc 0 + Q2Qc 0)%Qc by ring.
    apply Qcplus_le_compat; [|now apply IH].
    destruct (truthy (from_status tr)); [apply Qcle_refl|].
    apply in_days_nonneg. unfold dt_sub. lia.
Qed.

Lemma loop_nonneg (trs : list Transition) (st : Accounting Qc) :
  chronological parse (status_start_time st) trs = true ->
  no_negative_value (time_in_status st) ->
  no_negative_value (time_in_status (fold_left (account parse) trs st)).
Proof.
  revert st. induction trs as [|tr trs IH]; intros st Hord Hst; [exact Hst|].
  cbn [chronological] in Hord. apply andb_true_iff in Hord as [H1 H2].
  apply Z.leb_le in H1. cbn [fold_left]. apply IH; [exact H2|].
  unfold account. cbn [time_in_status].
  destruct (from_status tr) as [from|]; [|exact Hst].
  destruct (String.eqb from ""); [exact Hst|].
  apply accumulate_nonneg; [|exact Hst].
  apply in_days_nonneg. unfold dt_sub. fold (time_of parse tr). lia.
Qed.

Lemma chronological_last (start : datetime) (trs : list Transition) :
  chronological parse start trs = true ->
  instant start <= instant (last (map (time_of parse) trs) start).
Proof.
  revert start. induction trs as [|tr trs IH]; intros start Hord.
  - cbn. lia.
  - cbn [chronological] in Hord. apply andb_true_iff in Hord as [H1 H2].
    apply Z.leb_le in H1. specialize (IH _ H2).
    replace (last (map (time_of parse) (tr :: trs)) start)
      with (last (map (time_of parse) trs) (time_of parse tr))
      by (cbn [map]; now rewrite last_cons).
    lia.
Qed.

Variable changelog : string -> list History.

(** The method, with the end of the loop read off the transitions. *)
Lemma calculate_time_in_status_unfold (F : Type) (PF : PyFloat F) (issue : Issue) :
  calculate_time_in_status changelog parse issue
  = let trs := get_issue_transitions changelog (key issue) in
    let st := fold_left (account parse) trs
                {| time_in_status := Dict.empty F;
                   status_start_time := parse (created issue);
                   current_status := Some (status_name issue) |} in
    match trs with
    | [] => Returned (Dict.empty F)
    | _ :: _ =>
        match status_after issue trs with
        | None => Raised AttributeError
        | Some s =>
            if names_closed_state s
            then Returned (accumulate s
                   (in_days (dt_sub (parse (updated issue)) (time_after parse issue trs)))
                   (time_in_status st))
            else Returned (time_in_status st)
        end
    end.
Proof.
  unfold calculate_time_in_status, status_after, time_after.
  cbv zeta. destruct (get_issue_transitions changelog (key issue)) as [|tr trs] eqn:E;
    [reflexivity|].
  rewrite loop_status, loop_time. reflexivity.
Qed.

End Loop.

(* ================================================================== *)
(** ** Closed states *)

Lemma names_closed_state_iff (status : string) :
  names_closed_state status = true <->
  exists kw a b, In kw ["closed"; "resolved"; "done"] /\
                 lower status = a ++ kw ++ b.
Proof.
  unfold names_closed_state. cbv zeta.
  rewrite !orb_true_iff, !contains_iff. split.
  - intros [[[a [b H]]|[a [b H]]]|[a [b H]]].
    + exists "closed", a, b. split; [cbn; tauto | exact H].
    + exists "resolved", a, b. split; [cbn; tauto | exact H].
    + exists "done", a, b. split; [cbn; tauto | exact H].
  - intros [kw [a [b [Hin H]]]]. cbn in Hin.
    destruct Hin as [<-|[<-|[<-|[]]]]; eauto.
Qed.

(* ================================================================== *)
(** ** Open duration and time in status *)

Section Claims.
Variable changelog : string -> list History.
Variable parse : string -> datetime.

(** The method as one conditional on the test the other methods make. *)
Lemma calculate_open_duration_eq (F : Type) (PF : PyFloat F) (issue : Issue) :
  calculate_open_duration parse issue
  = if names_closed_state (status_name issue)
    then Some (in_days (dt_sub (parse (updated issue)) (parse (created issue))))
    else None.
Proof.
  unfold calculate_open_duration, names_closed_state. cbv zeta.
  rewrite not_closed_test.
  now destruct (contains "closed" (lower (status_name issue))
                || contains "resolved" (lower (status_name issue))
                || contains "done" (lower (status_name issue))).
Qed.

(** C10.  For an issue in a closed state the duration returned is the
    difference of the two stamps in days, whatever its sign: it is negative
    when the update precedes the creation. *)
Theorem open_duration_unbounded_below (issue : Issue) :
  names_closed_state (status_name issue) = true ->
  calculate_open_duration (F := Qc) parse issue
  = Some (in_days (dt_sub (parse (updated issue)) (parse (created issue))))
  /\ (instant (parse (updated issue)) < instant (parse (created issue)) ->
      (in_days (F := Qc) (dt_sub (parse (updated issue)) (parse (created issue)))
       < Q2Qc 0)%Qc).
Proof.
  intros Hclosed. split.
  - rewrite calculate_open_duration_eq. now rewrite Hclosed.
  - intros Hbefore. apply in_days_negative. unfold dt_sub. lia.
Qed.

(** C1, as the code has it.  An issue without status transitions gets the
    empty map, whatever its status. *)
Theorem no_transitions_empty_map (F : Type) (PF : PyFloat F) (issue : Issue) :
  get_issue_transitions changelog (key issue) = [] ->
  calculate_time_in_status changelog parse issue = Returned (Dict.empty F).
Proof.
  intros Hnone. unfold calculate_time_in_status. now rewrite Hnone.
Qed.

(** C2, as the code has it.  When no transition is earlier than the one
    before it, the first is no earlier than the creation and the last no later
    than the update, the map has no negative value. *)
Theorem ordered_history_no_negative_value (issue : Issue) (trs : list Transition) :
  get_issue_transitions changelog (key issue) = trs ->
  status_after issue trs <> None ->
  chronological parse (parse (created issue)) trs = true ->
  instant (time_after parse issue trs) <= instant (parse (updated issue)) ->
  exists m, calculate_time_in_status (F := Qc) changelog parse issue = Returned m
            /\ no_negative_value m.
Proof.
  intros Htrs Hstatus Hord Hlast.
  rewrite calculate_time_in_status_unfold, Htrs. cbv zeta.
  destruct trs as [|tr trs].
  { exists (Dict.empty Qc). split; [reflexivity | constructor]. }
  destruct (status_after issue (tr :: trs)) as [s|]; [|congruence].
  assert (Hloop : no_negative_value
            (time_in_status
               (fold_left (account parse) (tr :: trs)
                  {| time_in_status := Dict.empty Qc;
                     status_start_time := parse (created issue);
                     current_status := Some (status_name issue) |}))).
  { apply loop_nonneg; [exact Hord | constructor]. }
  destruct (names_closed_state s); eexists; (split; [reflexivity|]).
  - apply accumulate_nonneg; [|exact Hloop].
    apply in_days_nonneg. unfold dt_sub. lia.
  - exact Hloop.
Qed.

(** C3, as the code has it.  When the status after the last transition is
    that of a closed state and every transition but the first has a
    [from_status] that is neither null nor empty, the values of the map add up
    to the time from creation to update, in days; less the time from creation
    to the first transition when the first [from_status] is null or empty.
    The order of the timestamps plays no part. *)
Theorem closed_history_sum (issue : Issue) (tr : Transition)
  (rest : list Transition) (s : string) :
  get_issue_transitions changelog (key issue) = tr :: rest ->
  status_after issue (tr :: rest) = Some s ->
  names_closed_state s = true ->
  Forall (fun t => truthy (from_status t) = true) rest ->
  exists m, calculate_time_in_status (F := Qc) changelog parse issue = Returned m
    /\ sum_values m
       = if truthy (from_status tr)
         then in_days (dt_sub (parse (updated issue)) (parse (created issue)))
         else (in_days (dt_sub (parse (updated issue)) (parse (created issue)))
               - in_days (dt_sub (time_of parse tr) (parse (created issue))))%Qc.
Proof.
  intros Htrs Hstatus Hclosed Hrest.
  rewrite calculate_time_in_status_unfold, Htrs. cbv zeta.
  rewrite Hstatus, Hclosed. eexists. split; [reflexivity|].
  rewrite sum_values_accumulate, loop_sum.
  cbn [time_in_status status_start_time dropped]. unfold time_after.
  rewrite (dropped_nothing parse _ Hrest).
  rewrite <- (in_days_chain (parse (created issue))
                (last (map (time_of parse) (tr :: rest)) (parse (created issue)))
                (parse (updated issue))).
  change (sum_values (Dict.empty Qc)) with (Q2Qc 0).
  destruct (truthy (from_status tr)); ring.
Qed.

(** C5, as the code has it.  When the status after the last transition is not
    that of a closed state, the map is the one the loop leaves: it does not
    depend on the update stamp, and its values add up to the time from
    creation to the last transition less the dropped intervals.  The total is
    below the time from creation to update when the transitions are in order
    from the creation on and the last one is strictly before the update. *)
Theorem open_history_sum (issue : Issue) (trs : list Transition) (s : string) :
  get_issue_transitions changelog (key issue) = trs ->
  status_after issue trs = Some s ->
  names_closed_state s = false ->
  exists m, calculate_time_in_status (F := Qc) changelog parse issue = Returned m
    /\ (forall u, calculate_time_in_status changelog parse (with_updated u issue)
                  = Returned m)
    /\ sum_values m
       = (in_days (dt_sub (time_after parse issue trs) (parse (created issue)))
          - dropped parse (parse (created issue)) trs)%Qc
    /\ (chronological parse (parse (created issue)) trs = true ->
        instant (time_after parse issue trs) < instant (parse (updated issue)) ->
        (sum_values m
         < in_days (dt_sub (parse (updated issue)) (parse (created issue))))%Qc).
Proof.
  intros Htrs Hstatus Hopen.
  set (m := time_in_status
              (fold_left (account parse) trs
                 {| time_in_status := Dict.empty Qc;
                    status_start_time := parse (created issue);
                    current_status := Some (status_name issue) |})).
  assert (Hsum : sum_values m
                 = (in_days (dt_sub (time_after parse issue trs) (parse (created issue)))
                    - dropped parse (parse (created issue)) trs)%Qc).
  { unfold m. rewrite loop_sum. cbn [time_in_status status_start_time].
    change (sum_values (Dict.empty Qc)) with (Q2Qc 0). unfold time_after. ring. }
  assert (Hret : forall i, key i = key issue -> created i = created issue ->
                   status_name i = status_name issue ->
                   calculate_time_in_status changelog parse i = Returned m).
  { intros i Hk Hc Hs. rewrite calculate_time_in_status_unfold. cbv zeta.
    rewrite Hk, Hc, Hs, Htrs.
    replace (status_after i trs) with (status_after issue trs)
      by (unfold status_after; now rewrite Hs).
    rewrite Hstatus, Hopen. destruct trs; [|reflexivity].
    reflexivity. }
  exists m. split; [now apply Hret|]. split; [intros u; now apply Hret|].
  split; [exact Hsum|].
  intros Hord Hlast. rewrite Hsum.
  apply Qcle_lt_trans
    with (in_days (dt_sub (time_after parse issue trs) (parse (created issue)))).
  - pose proof (dropped_nonneg parse _ _ Hord) as Hd.
    apply Qcle_minus_iff.
    match goal with |- (_ <= ?e)%Qc =>
      replace e with (dropped parse (parse (created issue)) trs) by ring end.
    exact Hd.
  - apply in_days_lt. unfold dt_sub. lia.
Qed.

End Claims.

(* ================================================================== *)
(** ** The scenarios, run *)

Import Scenario.

Example parse_new_year :
  Iso8601.parse "2024-01-01T00:00:00Z"
  = {| wall := 1704067200000000; utcoffset := 0 |}.
Proof. reflexivity. Qed.

Example parse_with_offset :
  Iso8601.parse "2024-03-10T01:30:15.250-0800"
  = {| wall := 1710034215250000; utcoffset := -28800000000 |}.
Proof. reflexivity. Qed.

Example transitions_of_X :
  get_issue_transitions log_X "X-1"
  = [ mk_transition "X-1" "2024-01-03T00:00:00Z" (Some "Open") (Some "In Progress");
      mk_transition "X-1" "2024-01-10T00:00:00Z" (Some "In Progress") (Some "Done") ].
Proof. reflexivity. Qed.

Lemma open_duration_unbounded_below_witness :
  names_closed_state (status_name Z1) = true
  /\ calculate_open_duration (F := Qc) Iso8601.parse Z1
     = Some (in_days (dt_sub (Iso8601.parse (updated Z1))
                             (Iso8601.parse (created Z1))))
  /\ (in_days (F := Qc) (dt_sub (Iso8601.parse (updated Z1))
                                (Iso8601.parse (created Z1))) < Q2Qc 0)%Qc.
Proof.
  split; [reflexivity|].
  destruct (open_duration_unbounded_below Iso8601.parse Z1 eq_refl) as [Hret Hneg].
  split; [exact Hret|]. apply Hneg. vm_compute. reflexivity.
Defined.

(** In binary64 the same issue gets minus one hour, in days. *)
Example open_duration_negative_float :
  calculate_open_duration (F := float) Iso8601.parse Z1
  = Some (PrimFloat.opp (PrimFloat.div 1 24)).
Proof. vm_compute. reflexivity. Qed.

(** C1, as stated, fails: a closed issue without transitions gets the empty
    map, not the one-entry map of its lifetime. *)
Lemma closed_without_transitions_counterexample :
  names_closed_state (status_name X) = true
  /\ get_issue_transitions no_log (key X) = []
  /\ calculate_time_in_status (F := float) no_log Iso8601.parse X
     <> Returned [ (status_name X,
                    in_days (dt_sub (Iso8601.parse (updated X))
                                    (Iso8601.parse (created X)))) ].
Proof.
  split; [reflexivity|]. split; [reflexivity|].
  vm_compute. discriminate.
Qed.

Lemma no_transitions_empty_map_witness :
  get_issue_transitions no_log (key X) = []
  /\ calculate_time_in_status (F := float) no_log Iso8601.parse X
     = Returned (Dict.empty float).
Proof.
  split; [reflexivity|].
  apply (no_transitions_empty_map no_log Iso8601.parse PyFloat_binary64 X).
  reflexivity.
Defined.

(** C2, as stated, fails: a first transition dated two days before the
    creation charges minus two days to its [from_status]. *)
Lemma early_transition_counterexample :
  calculate_time_in_status (F := float) log_early Iso8601.parse X
  = Returned [ ("Open", PrimFloat.opp 2); ("In Progress", 11%float);
               ("Done", 0%float) ]
  /\ exists m v,
       calculate_time_in_status (F := Qc) log_early Iso8601.parse X = Returned m
       /\ Dict.get "Open" m = Some v /\ (v < Q2Qc 0)%Qc.
Proof.
  split; [vm_compute; reflexivity|].
  eexists. eexists. split; [reflexivity|]. split; [vm_compute; reflexivity|].
  vm_compute. reflexivity.
Qed.

(** The sort of [get_issue_transitions] orders the texts of the stamps, not
    the instants: here the change to "Done" is placed first and "In Progress"
    is charged minus forty minutes. *)
Example sorted_by_text_not_by_time :
  map timestamp (get_issue_transitions log_autumn (key W))
  = [ "2024-11-03T01:10:00.000-0800"; "2024-11-03T01:30:00.000-0700" ]
  /\ chronological Iso8601.parse (Iso8601.parse (created W))
       (get_issue_transitions log_autumn (key W)) = false
  /\ calculate_time_in_status (F := float) log_autumn Iso8601.parse W
     = Returned [ ("In Progress",
                   PrimFloat.div (PrimFloat.div 180600000000 1000000) 86400);
                  ("Open",
                   PrimFloat.div (PrimFloat.div (PrimFloat.opp 2400000000) 1000000)
                                 86400) ].
Proof. split; [reflexivity|]. split; vm_compute; reflexivity. Qed.

Lemma ordered_history_no_negative_value_witness :
  exists m, calculate_time_in_status (F := Qc) log_X Iso8601.parse X = Returned m
            /\ no_negative_value m.
Proof.
  apply (ordered_history_no_negative_value log_X Iso8601.parse X
           (trs := get_issue_transitions log_X (key X))).
  - reflexivity.
  - vm_compute. discriminate.
  - vm_compute. reflexivity.
  - vm_compute. discriminate.
Defined.

(** C3, as stated, fails, in two ways.  The snapshot of the issue says
    "Done" while its changelog ends at "In Progress": the last interval is
    not charged.  And a [from_status] that is the empty string, not null,
    drops its interval all the same. *)
Lemma closed_issue_sum_counterexample :
  (names_closed_state (status_name X) = true
   /\ get_issue_transitions log_stale (key X)
      = [ mk_transition "X-1" "2024-01-03T00:00:00Z" (Some "Open") (Some "In Progress") ]
   /\ exists m,
        calculate_time_in_status (F := Qc) log_stale Iso8601.parse X = Returned m
        /\ sum_values m
           <> in_days (dt_sub (Iso8601.parse (updated X)) (Iso8601.parse (created X))))
  /\
  (names_closed_state (status_name X) = true
   /\ get_issue_transitions log_blank (key X)
      = [ mk_transition "X-1" "2024-01-03T00:00:00Z" (Some "Open") (Some "In Progress");
          mk_transition "X-1" "2024-01-10T00:00:00Z" (Some "") (Some "Done") ]
   /\ chronological Iso8601.parse (Iso8601.parse (created X))
        (get_issue_transitions log_blank (key X)) = true
   /\ exists m,
        calculate_time_in_status (F := Qc) log_blank Iso8601.parse X = Returned m
        /\ sum_values m
           <> in_days (dt_sub (Iso8601.parse (updated X)) (Iso8601.parse (created X)))).
Proof.
  split.
  - split; [reflexivity|]. split; [reflexivity|].
    eexists. split; [reflexivity|].
    intros H. apply (f_equal this) in H. vm_compute in H. discriminate.
  - split; [reflexivity|]. split; [reflexivity|]. split; [reflexivity|].
    eexists. split; [reflexivity|].
    intros H. apply (f_equal this) in H. vm_compute in H. discriminate.
Qed.

Lemma closed_history_sum_witness :
  exists m, calculate_time_in_status (F := Qc) log_X Iso8601.parse X = Returned m
    /\ sum_values m
       = in_days (dt_sub (Iso8601.parse (updated X)) (Iso8601.parse (created X))).
Proof.
  apply (closed_history_sum log_X Iso8601.parse X
           (tr := mk_transition "X-1" "2024-01-03T00:00:00Z"
                    (Some "Open") (Some "In Progress"))
           (rest := [ mk_transition "X-1" "2024-01-10T00:00:00Z"
                        (Some "In Progress") (Some "Done") ])
           (s := "Done")).
  - reflexivity.
  - reflexivity.
  - reflexivity.
  - repeat constructor.
Defined.

(** C4, as stated, fails: the map has a third key, "Done". *)
Lemma worked_example_counterexample :
  exists m,
    calculate_time_in_status (F := float) log_X Iso8601.parse X = Returned m
    /\ Dict.mem "Done" m = true
    /\ Dict.mem "Done" [ ("Open", 2%float); ("In Progress", 7%float) ] = false.
Proof.
  eexists. split; [reflexivity|]. split; vm_compute; reflexivity.
Qed.

(** C4, as the code has it.  On the worked example the map is
    [{"Open": 2.0, "In Progress": 7.0, "Done": 0.0}], in binary64 and in exact
    arithmetic alike. *)
Theorem worked_example :
  calculate_time_in_status (F := float) log_X Iso8601.parse X
  = Returned [ ("Open", 2%float); ("In Progress", 7%float); ("Done", 0%float) ]
  /\ calculate_time_in_status (F := Qc) log_X Iso8601.parse X
     = Returned [ ("Open", Q2Qc 2); ("In Progress", Q2Qc 7); ("Done", Q2Qc 0) ].
Proof.
  split; vm_compute; reflexivity.
Qed.

(** C5, as stated, fails in its second half: when the last update of an open
    issue is its last status change, the values add up to the whole time from
    creation to update. *)
Lemma open_issue_sum_counterexample :
  get_issue_transitions log_Y (key Y)
  = [ mk_transition "Y-1" "2024-01-03T00:00:00Z" (Some "Open") (Some "In Progress") ]
  /\ status_after Y (get_issue_transitions log_Y (key Y)) = Some "In Progress"
  /\ names_closed_state "In Progress" = false
  /\ exists m,
       calculate_time_in_status (F := Qc) log_Y Iso8601.parse Y = Returned m
       /\ ~ (sum_values m
             < in_days (dt_sub (Iso8601.parse (updated Y)) (Iso8601.parse (created Y))))%Qc.
Proof.
  split; [reflexivity|]. split; [reflexivity|]. split; [reflexivity|].
  eexists. split; [reflexivity|].
  unfold Qclt. vm_compute. discriminate.
Qed.

Lemma open_history_sum_witness :
  let issue := with_updated "2024-01-05T00:00:00Z" Y in
  exists m,
    calculate_time_in_status (F := Qc) log_Y Iso8601.parse issue = Returned m
    /\ (sum_values m
        < in_days (dt_sub (Iso8601.parse (updated issue))
                          (Iso8601.parse (created issue))))%Qc.
Proof.
  intros issue.
  destruct (open_history_sum log_Y Iso8601.parse issue
              (trs := get_issue_transitions log_Y (key issue))
              (s := "In Progress") eq_refl eq_refl eq_refl)
    as [m [Hret [_ [_ Hless]]]].
  exists m. split; [exact Hret|]. apply Hless.
  - vm_compute. reflexivity.
  - vm_compute. reflexivity.
Defined.

(* ================================================================== *)
(** ** Priorities *)

Lemma count_priorities_null (issues rest : list Issue) (issue : Issue)
  (counts : Dict.t Z) :
  Forall (fun i => priority i <> Null) issues ->
  priority issue = Null ->
  count_priorities (issues ++ issue :: rest) counts = Raised AttributeError.
Proof.
  intros Hfine Hnull. revert counts.
  induction Hfine as [|i issues Hi _ IH]; intros counts; cbn.
  - unfold priority_label. now rewrite Hnull.
  - unfold priority_label. destruct (priority i); [apply IH | congruence | apply IH].
Qed.

(** An issue without the member is counted under "Unknown". *)
Lemma priority_label_missing (issue : Issue) :
  priority issue = Missing -> priority_label issue = Returned "Unknown".
Proof. unfold priority_label. now intros ->. Qed.

Lemma get_set_other (V : Type) (k k' : string) (v : V) (d : Dict.t V) :
  k <> k' -> Dict.get k (Dict.set k' v d) = Dict.get k d.
Proof.
  intros Hne. induction d as [|[k0 v0] d IH]; cbn.
  - destruct (String.eqb_spec k k'); [congruence | reflexivity].
  - destruct (String.eqb_spec k' k0) as [->|Hne0]; cbn.
    + destruct (String.eqb_spec k k0); [congruence | reflexivity].
    + destruct (String.eqb k k0); [reflexivity | exact IH].
Qed.

Lemma count_of_increment (k k' : string) (d : Dict.t Z) :
  count_of k (increment k' d)
  = count_of k d + (if String.eqb k' k then 1 else 0).
Proof.
  unfold count_of, increment. destruct (String.eqb_spec k' k) as [->|Hne].
  - rewrite get_set_same. reflexivity.
  - rewrite get_set_other by congruence. lia.
Qed.

(** When no issue has a null priority the aggregation returns, and the count
    under a label is the number of issues with that label; the issues without
    the member, or without a name in it, are those under "Unknown". *)
Lemma count_priorities_fine (issues : list Issue) (counts : Dict.t Z) :
  Forall (fun i => priority i <> Null) issues ->
  exists result,
    count_priorities issues counts = Returned result
    /\ forall label,
         count_of label result
         = count_of label counts
           + Z.of_nat (List.length (filter (labelled label) issues)).
Proof.
  intros Hfine. revert counts.
  induction Hfine as [|i issues Hi _ IH]; intros counts.
  - exists counts. split; [reflexivity|]. intros label. cbn. lia.
  - cbn [count_priorities filter]. unfold labelled at 1.
    destruct (priority_label i) as [l|e] eqn:Hl.
    + destruct (IH (increment l counts)) as [result [Hret Hcount]].
      exists result. split; [exact Hret|]. intros label.
      rewrite Hcount, count_of_increment.
      destruct (String.eqb l label); cbn [List.length]; lia.
    + unfold priority_label in Hl. destruct (priority i); congruence.
Qed.

(** C9.  An issue whose priority member is absent is counted under
    "Unknown"; when the member is present and null, as the tracker sends it
    for an issue without priority, [.get('name', 'Unknown')] is called on
    [None] and the aggregation ends in [AttributeError], counting nothing.
    The assignee, read by the same pattern, is guarded against null. *)
Theorem null_priority_raises :
  generate_priority_distribution [ task "T-6" (person "ann") (person "eve") Missing ]
  = Returned [ ("Unknown", 1) ]
  /\ generate_priority_distribution unprioritised = Raised AttributeError
  /\ fst (generate_user_task_distribution
            [ task "T-8" Null (person "eve") Missing ] 30) = [].
Proof.
  split; [reflexivity|]. split; reflexivity.
Qed.

(* ================================================================== *)
(** ** The daily trend *)

Lemma min_date_spec (d : Z) (l : list Z) :
  In (min_date d l) (d :: l) /\ forall x, In x (d :: l) -> min_date d l <= x.
Proof.
  induction l as [|y l [Hin Hle]]; cbn [min_date fold_right].
  - split; [now left | intros x [<-|[]]; lia].
  - fold (min_date d l). split.
    + destruct (Z.min_spec y (min_date d l)) as [[_ ->]|[_ ->]].
      * right. now left.
      * destruct Hin as [Hin|Hin]; [now left | right; now right].
    + intros x [<-|[<-|Hx]].
      * specialize (Hle d (or_introl eq_refl)). lia.
      * lia.
      * specialize (Hle x (or_intror Hx)). lia.
Qed.

Lemma max_date_spec (d : Z) (l : list Z) :
  In (max_date d l) (d :: l) /\ forall x, In x (d :: l) -> x <= max_date d l.
Proof.
  induction l as [|y l [Hin Hle]]; cbn [max_date fold_right].
  - split; [now left | intros x [<-|[]]; lia].
  - fold (max_date d l). split.
    + destruct (Z.max_spec y (max_date d l)) as [[_ ->]|[_ ->]].
      * destruct Hin as [Hin|Hin]; [now left | right; now right].
      * right. now left.
    + intros x [<-|[<-|Hx]].
      * specialize (Hle d (or_introl eq_refl)). lia.
      * lia.
      * specialize (Hle x (or_intror Hx)). lia.
Qed.

Lemma pd_date_range_length (a b : Z) :
  List.length (pd_date_range a b) = Z.to_nat (b - a + 1).
Proof. unfold pd_date_range. now rewrite length_map, length_seq. Qed.

Lemma pd_date_range_nth (a b : Z) (i : nat) (d : Z) :
  nth_error (pd_date_range a b) i = Some d -> d = a + Z.of_nat i.
Proof.
  unfold pd_date_range. intros H.
  assert (Hi : (i < Z.to_nat (b - a + 1))%nat).
  { assert (Hsome : nth_error (map (fun i => a + Z.of_nat i)
                                 (seq 0 (Z.to_nat (b - a + 1)))) i <> None)
      by congruence.
    apply nth_error_Some in Hsome. now rewrite length_map, length_seq in Hsome. }
  rewrite nth_error_map, nth_error_seq in H.
  destruct (Nat.ltb_spec i (Z.to_nat (b - a + 1))) as [_|Hge]; [|lia].
  cbn in H. now injection H as <-.
Qed.

Lemma pd_date_range_In (a b d : Z) :
  In d (pd_date_range a b) <-> a <= d <= b.
Proof.
  unfold pd_date_range. rewrite in_map_iff. split.
  - intros [i [<- Hi]]. apply in_seq in Hi. lia.
  - intros Hd. exists (Z.to_nat (d - a)). split; [lia|]. apply in_seq. lia.
Qed.

Lemma count_map (A : Type) (f : A -> Z) (l : list A) (d : Z) :
  count (map f l) d = Z.of_nat (List.length (filter (fun x => f x =? d) l)).
Proof.
  unfold count. f_equal. induction l as [|x l IH]; [reflexivity|].
  cbn [map filter count_occ].
  destruct (Z.eq_dec (f x) d) as [->|Hne].
  - rewrite Z.eqb_refl. cbn. now rewrite IH.
  - apply Z.eqb_neq in Hne. now rewrite Hne.
Qed.

Lemma count_selected (A : Type) (c : A -> bool) (f : A -> Z) (l : list A) (d : Z) :
  count (flat_map (fun x => if c x then [f x] else []) l) d
  = Z.of_nat (List.length (filter (fun x => c x && (f x =? d)) l)).
Proof.
  unfold count. f_equal. induction l as [|x l IH]; [reflexivity|].
  cbn [flat_map filter]. destruct (c x); cbn [app andb count_occ]; [|exact IH].
  destruct (Z.eq_dec (f x) d) as [->|Hne].
  - rewrite Z.eqb_refl. cbn. now rewrite IH.
  - apply Z.eqb_neq in Hne. now rewrite Hne.
Qed.

Lemma count_nonneg (l : list Z) (d : Z) : 0 <= count l d.
Proof. unfold count. lia. Qed.

Lemma cumsum_from_lower (acc : Z) (l : list Z) (j : nat) (y : Z) :
  Forall (fun x => 0 <= x) l ->
  nth_error (cumsum_from acc l) j = Some y -> acc <= y.
Proof.
  intros Hl. revert acc j. induction Hl as [|x l Hx _ IH]; intros acc j Hj.
  - destruct j; discriminate.
  - destruct j as [|j]; cbn in Hj.
    + injection Hj as <-. lia.
    + specialize (IH _ _ Hj). lia.
Qed.

(** The running sums of counts never decrease. *)
Lemma cumsum_from_non_decreasing (acc : Z) (l : list Z) :
  Forall (fun x => 0 <= x) l -> non_decreasing (cumsum_from acc l).
Proof.
  intros Hl. revert acc. induction Hl as [|x l Hx Hl IH]; intros acc i j a b Hij Hi Hj.
  - destruct i; discriminate.
  - destruct i as [|i], j as [|j]; cbn in Hi, Hj.
    + injection Hi as <-. injection Hj as <-. lia.
    + injection Hi as <-. now apply cumsum_from_lower in Hj.
    + lia.
    + apply (IH (acc + x) i j a b); [lia | exact Hi | exact Hj].
Qed.

Lemma counts_non_decreasing (l range : list Z) :
  non_decreasing (cumsum (map (count l) range)).
Proof.
  apply cumsum_from_non_decreasing. apply Forall_forall.
  intros x Hx. apply in_map_iff in Hx as [d [<- _]]. apply count_nonneg.
Qed.

Lemma observed_iff (parse : string -> datetime) (issues : list Issue) (d : Z) :
  observed parse issues d <->
  In d (map (fun issue => date_of (parse (created issue))) issues
        ++ flat_map (fun issue =>
                       if names_closed_state (status_name issue)
                       then [date_of (parse (updated issue))]
                       else []) issues)%list.
Proof.
  rewrite in_app_iff, in_map_iff, in_flat_map. unfold observed. split.
  - intros [issue [Hin [->|[Hclosed ->]]]].
    + left. now exists issue.
    + right. exists issue. split; [exact Hin|]. rewrite Hclosed. now left.
  - intros [[issue [<- Hin]]|[issue [Hin Hd]]].
    + exists issue. split; [exact Hin | now left].
    + exists issue. split; [exact Hin|].
      destruct (names_closed_state (status_name issue)); [|contradiction].
      destruct Hd as [<-|[]]. right. now split.
Qed.

(** C7.  For a non-empty issue set the trend covers the days from the
    earliest to the latest observed date, each once and in order; the entry
    of a day is the number of issues created, and closed, on that day (0 when
    there is none); both running sums never decrease. *)
Theorem daily_trend_contiguous_and_monotone (parse : string -> datetime)
  (issues : list Issue) :
  issues <> [] ->
  exists r lo hi,
    generate_daily_task_trend parse issues = Some r
    /\ observed parse issues lo /\ observed parse issues hi
    /\ (forall d, observed parse issues d -> lo <= d <= hi)
    /\ List.length (date_range r) = Z.to_nat (hi - lo + 1)
    /\ (forall d, lo <= d <= hi -> In d (date_range r))
    /\ (forall i d, nth_error (date_range r) i = Some d ->
          d = lo + Z.of_nat i
          /\ nth_error (created_counts r) i = Some (created_on parse issues d)
          /\ nth_error (closed_counts r) i = Some (closed_on parse issues d))
    /\ List.length (cumulative_created r) = List.length (date_range r)
    /\ List.length (cumulative_closed r) = List.length (date_range r)
    /\ non_decreasing (cumulative_created r)
    /\ non_decreasing (cumulative_closed r).
Proof.
  intros Hne. unfold generate_daily_task_trend. cbv zeta.
  pose proof (observed_iff parse issues) as Hobs.
  set (created_dates := map (fun issue => date_of (parse (created issue))) issues) in *.
  set (closed_dates :=
         flat_map (fun issue => if names_closed_state (status_name issue)
                                then [date_of (parse (updated issue))] else [])
                  issues) in *.
  destruct (created_dates ++ closed_dates)%list as [|d all_dates] eqn:Hall.
  { destruct issues; [congruence | discriminate]. }
  destruct (min_date_spec d all_dates) as [Hmin_in Hmin].
  destruct (max_date_spec d all_dates) as [Hmax_in Hmax].
  eexists. exists (min_date d all_dates), (max_date d all_dates).
  split; [reflexivity|]. cbn [date_range created_counts closed_counts
                              cumulative_created cumulative_closed].
  split; [now apply Hobs|]. split; [now apply Hobs|].
  split. { intros x Hx. apply Hobs in Hx. split; [now apply Hmin | now apply Hmax]. }
  split; [apply pd_date_range_length|].
  split. { intros x Hx. now apply pd_date_range_In. }
  split.
  { intros i x Hi. split; [now apply pd_date_range_nth in Hi|].
    rewrite !nth_error_map, Hi. cbn [option_map]. split; f_equal.
    - apply count_map.
    - unfold closed_dates. apply count_selected. }
  assert (Hlen : forall acc l, List.length (cumsum_from acc l) = List.length l).
  { intros acc l. revert acc. induction l as [|x l IH]; intros acc; cbn; [reflexivity|].
    now rewrite IH. }
  unfold cumsum. rewrite !Hlen, !length_map.
  split; [reflexivity|]. split; [reflexivity|].
  split; apply counts_non_decreasing.
Qed.

Lemma daily_trend_contiguous_and_monotone_witness :
  exists r,
    generate_daily_task_trend Iso8601.parse [X; Y] = Some r
    /\ date_range r = [19723; 19724; 19725; 19726; 19727; 19728; 19729; 19730;
                       19731; 19732]
    /\ created_counts r = [2; 0; 0; 0; 0; 0; 0; 0; 0; 0]
    /\ closed_counts r = [0; 0; 0; 0; 0; 0; 0; 0; 0; 1]
    /\ non_decreasing (cumulative_created r)
    /\ non_decreasing (cumulative_closed r).
Proof.
  destruct (daily_trend_contiguous_and_monotone Iso8601.parse (issues := [X; Y]))
    as [r [lo [hi [Hret [_ [_ [_ [_ [_ [_ [_ [_ [Hc1 Hc2]]]]]]]]]]]]].
  - discriminate.
  - exists r. vm_compute in Hret. injection Hret as <-.
    repeat (split; [first [reflexivity | assumption]|]). assumption.
Defined.

(* ================================================================== *)
(** ** Rankings *)

Lemma before_cons (A : Type) (x y z : A) (l : list A) :
  before x y (z :: l) <-> (x = z /\ In y l) \/ before x y l.
Proof.
  unfold before. split.
  - intros [l1 [l2 [Heq Hin]]]. destruct l1 as [|w l1]; cbn in Heq.
    + injection Heq as <- <-. now left.
    + injection Heq as <- ->. right. now exists l1, l2.
  - intros [[-> Hin]|[l1 [l2 [-> Hin]]]].
    + now exists [], l.
    + now exists (z :: l1), l2.
Qed.

Lemma before_nil (A : Type) (x y : A) : ~ before x y [].
Proof. intros [l1 [l2 [Heq _]]]. destruct l1; discriminate. Qed.

Lemma before_In (A : Type) (x y : A) (l : list A) :
  before x y l -> In x l /\ In y l.
Proof.
  intros [l1 [l2 [-> Hin]]]. rewrite !in_app_iff. cbn. tauto.
Qed.

Lemma before_snoc (A : Type) (x y z : A) (l : list A) :
  before x y (l ++ [z]) -> before x y l \/ (In x l /\ y = z).
Proof.
  induction l as [|w l IH]; cbn [app]; intros H.
  - apply before_cons in H as [[_ []]|H]. now apply before_nil in H.
  - apply before_cons in H as [[-> Hin]|H].
    + apply in_app_iff in Hin as [Hin|[<-|[]]].
      * left. apply before_cons. now left.
      * right. split; [now left | reflexivity].
    + destruct (IH H) as [Hb|[Hin ->]].
      * left. apply before_cons. now right.
      * right. split; [now right | reflexivity].
Qed.

Lemma before_firstn (A : Type) (x y : A) (n : nat) (l : list A) :
  before x y (firstn n l) -> before x y l.
Proof.
  intros [l1 [l2 [Heq Hin]]]. exists l1, (l2 ++ skipn n l)%list. split.
  - rewrite <- (firstn_skipn n l) at 1. rewrite Heq, <- app_assoc. reflexivity.
  - apply in_app_iff. now left.
Qed.

Lemma before_map (A B : Type) (f : A -> B) (x y : A) (l : list A) :
  before x y l -> before (f x) (f y) (map f l).
Proof.
  intros [l1 [l2 [-> Hin]]]. exists (map f l1), (map f l2). split.
  - now rewrite map_app.
  - now apply in_map.
Qed.

(** In a list two distinct members come one before the other. *)
Lemma before_total (A : Type) (x y : A) (l : list A) :
  x <> y -> In x l -> In y l -> before x y l \/ before y x l.
Proof.
  intros Hne. induction l as [|z l IH]; intros Hx Hy; [contradiction|].
  destruct Hx as [->|Hx], Hy as [->|Hy].
  - congruence.
  - left. apply before_cons. now left.
  - right. apply before_cons. now left.
  - destruct (IH Hx Hy) as [H|H]; [left | right]; apply before_cons; now right.
Qed.

Section Stability.
Variable A : Type.
Variable precedes : A -> A -> bool.

Lemma insert_stable_In (x y : A) (l : list A) :
  In y (insert_stable precedes x l) <-> y = x \/ In y l.
Proof.
  induction l as [|z l IH]; cbn.
  - intuition congruence.
  - destruct (precedes z x); cbn; rewrite ?IH; intuition congruence.
Qed.

Lemma stable_sort_In (y : A) (l : list A) :
  In y (stable_sort precedes l) <-> In y l.
Proof.
  induction l as [|x l IH]; [reflexivity|].
  cbn [stable_sort fold_right]. fold (stable_sort precedes l).
  rewrite insert_stable_In, IH. cbn. intuition congruence.
Qed.

(** Where a pair of the list after an insertion comes from. *)
Lemma insert_stable_before (x a b : A) (l : list A) :
  before a b (insert_stable precedes x l) ->
  before a b l \/ (a = x /\ In b l) \/ (b = x /\ precedes a x = true).
Proof.
  induction l as [|z l IH]; cbn [insert_stable]; intros H.
  - apply before_cons in H as [[_ []]|H]. now apply before_nil in H.
  - destruct (precedes z x) eqn:Hz.
    + apply before_cons in H as [[-> Hin]|H].
      * apply insert_stable_In in Hin as [->|Hin].
        -- right. right. now split.
        -- left. apply before_cons. now left.
      * destruct (IH H) as [Hb|[[-> Hin]|Hx]].
        -- left. apply before_cons. now right.
        -- right. left. split; [reflexivity | now right].
        -- right. now right.
    + apply before_cons in H as [[-> Hin]|H].
      * right. now left.
      * now left.
Qed.

(** Stability: two elements neither of which precedes the other stay in the
    order of the input. *)
Lemma stable_sort_before (a b : A) (l : list A) :
  precedes a b = false ->
  before a b (stable_sort precedes l) -> before a b l.
Proof.
  intros Htie. induction l as [|x l IH]; intros H.
  - now apply before_nil in H.
  - cbn [stable_sort fold_right] in H. fold (stable_sort precedes l) in H.
    apply insert_stable_before in H as [H|[[-> Hin]|[-> Hp]]].
    + apply before_cons. right. now apply IH.
    + apply before_cons. left. split; [reflexivity|].
      rewrite stable_sort_In in Hin. exact Hin.
    + congruence.
Qed.

End Stability.

Lemma slice_to_before (A : Type) (x y : A) (n : Z) (l : list A) :
  before x y (slice_to n l) -> before x y l.
Proof.
  unfold slice_to. destruct (0 <=? n); apply before_firstn.
Qed.

(** Ties of a ranking stand in the order of the dictionary. *)
Lemma top_before (n : Z) (counts : Dict.t Z) (u v : string) (c : Z) :
  before (u, c) (v, c) (top n counts) -> before u v (Dict.keys counts).
Proof.
  unfold top. intros H. apply slice_to_before in H.
  apply stable_sort_before in H; [|cbn; apply Z.ltb_irrefl].
  exact (before_map fst H).
Qed.

Lemma mem_keys (V : Type) (k : string) (d : Dict.t V) :
  Dict.mem k d = true <-> In k (Dict.keys d).
Proof.
  unfold Dict.mem. induction d as [|[k' v] d IH]; cbn.
  - split; [discriminate | contradiction].
  - destruct (String.eqb_spec k k') as [->|Hne].
    + split; [now left | reflexivity].
    + rewrite IH. cbn. split; [now right | intros [H|H]; [congruence | exact H]].
Qed.

Lemma keys_set (V : Type) (k : string) (v : V) (d : Dict.t V) :
  Dict.keys (Dict.set k v d)
  = if Dict.mem k d then Dict.keys d else (Dict.keys d ++ [k])%list.
Proof.
  unfold Dict.mem, Dict.keys. induction d as [|[k' v'] d IH]; cbn; [reflexivity|].
  destruct (String.eqb k k'); cbn; [reflexivity|].
  rewrite IH. now destruct (Dict.get k d).
Qed.

Section Encounters.
Variable who : Issue -> member User.

Lemma first_encounter_bound (u : string) (issues : list Issue) (i : nat) :
  first_encounter who u issues = Some i -> (i < List.length issues)%nat.
Proof.
  revert i. induction issues as [|x issues IH]; cbn; intros i H; [discriminate|].
  destruct (counted_name (who x)) as [n|].
  - destruct (String.eqb n u); [injection H as <-; lia|].
    destruct (first_encounter who u issues); [|discriminate].
    injection H as <-. specialize (IH _ eq_refl). lia.
  - destruct (first_encounter who u issues); [|discriminate].
    injection H as <-. specialize (IH _ eq_refl). lia.
Qed.

Lemma first_encounter_snoc (u : string) (issues : list Issue) (x : Issue) :
  first_encounter who u (issues ++ [x])
  = match first_encounter who u issues with
    | Some i => Some i
    | None =>
        match counted_name (who x) with
        | Some n => if String.eqb n u then Some (List.length issues) else None
        | None => None
        end
    end.
Proof.
  induction issues as [|y issues IH]; cbn [app first_encounter List.length].
  - destruct (counted_name (who x)) as [n|]; [|reflexivity].
    now destruct (String.eqb n u).
  - rewrite IH. destruct (counted_name (who y)) as [m|].
    + destruct (String.eqb m u); [reflexivity|].
      destruct (first_encounter who u issues); [reflexivity|].
      destruct (counted_name (who x)) as [n|]; [|reflexivity].
      now destruct (String.eqb n u).
    + destruct (first_encounter who u issues); [reflexivity|].
      destruct (counted_name (who x)) as [n|]; [|reflexivity].
      now destruct (String.eqb n u).
Qed.

Lemma tally_snoc (issues : list Issue) (x : Issue) (counts : Dict.t Z) :
  tally who (issues ++ [x]) counts
  = match counted_name (who x) with
    | Some n => increment n (tally who issues counts)
    | None => tally who issues counts
    end.
Proof. unfold tally. now rewrite fold_left_app. Qed.

(** The keys of the dictionary are the users met, in the order of their first
    encounter. *)
Lemma tally_keys (issues : list Issue) :
  (forall u, In u (Dict.keys (tally who issues (Dict.empty Z)))
             <-> first_encounter who u issues <> None)
  /\ (forall u v, before u v (Dict.keys (tally who issues (Dict.empty Z))) ->
        exists i j, first_encounter who u issues = Some i
                    /\ first_encounter who v issues = Some j /\ (i < j)%nat).
Proof.
  induction issues as [|x issues [IHin IHord]] using rev_ind.
  - split.
    + intros u. cbn. split; [contradiction | congruence].
    + intros u v H. now apply before_nil in H.
  - rewrite tally_snoc.
    destruct (counted_name (who x)) as [n|] eqn:Hn.
    + unfold increment. rewrite keys_set.
      destruct (Dict.mem n (tally who issues (Dict.empty Z))) eqn:Hmem.
      * apply mem_keys, IHin in Hmem. split.
        -- intros u. rewrite first_encounter_snoc, Hn, IHin.
           destruct (first_encounter who u issues) eqn:Hu; [tauto|].
           destruct (String.eqb_spec n u) as [->|_]; [congruence | tauto].
        -- intros u v H. destruct (IHord u v H) as [i [j [Hi [Hj Hij]]]].
           exists i, j. rewrite !first_encounter_snoc, Hi, Hj. tauto.
      * assert (Hnew : first_encounter who n issues = None).
        { destruct (first_encounter who n issues) eqn:E; [|reflexivity].
          assert (Hin : In n (Dict.keys (tally who issues (Dict.empty Z))))
            by (apply IHin; congruence).
          apply mem_keys in Hin. congruence. }
        split.
        -- intros u. rewrite first_encounter_snoc, Hn, in_app_iff, IHin. cbn [In].
           destruct (first_encounter who u issues) eqn:Hu.
           ++ split; [congruence | intros _; left; congruence].
           ++ destruct (String.eqb_spec n u) as [->|Hne].
              ** split; [congruence | tauto].
              ** split; [intros [H|[H|[]]]; congruence | congruence].
        -- intros u v H. apply before_snoc in H as [H|[Hu ->]].
           ++ destruct (IHord u v H) as [i [j [Hi [Hj Hij]]]].
              exists i, j. rewrite !first_encounter_snoc, Hi, Hj. tauto.
           ++ apply IHin in Hu.
              destruct (first_encounter who u issues) as [i|] eqn:Hi; [|congruence].
              exists i, (List.length issues).
              rewrite !first_encounter_snoc, Hi, Hnew, Hn, String.eqb_refl.
              split; [reflexivity|]. split; [reflexivity|].
              now apply first_encounter_bound in Hi.
    + split.
      * intros u. rewrite first_encounter_snoc, Hn, IHin.
        destruct (first_encounter who u issues); tauto.
      * intros u v H. destruct (IHord u v H) as [i [j [Hi [Hj Hij]]]].
        exists i, j. rewrite !first_encounter_snoc, Hi, Hj. tauto.
Qed.

(** A ranking drawn from the counts keeps ties in the order of encounter. *)
Lemma top_ties (issues : list Issue) (n : Z) :
  ties_in_encounter_order who issues (top n (tally who issues (Dict.empty Z))).
Proof.
  intros u v c Hu Hv.
  assert (Hfwd : forall a b,
            before (a, c) (b, c) (top n (tally who issues (Dict.empty Z))) ->
            exists i j, first_encounter who a issues = Some i
                        /\ first_encounter who b issues = Some j /\ (i < j)%nat).
  { intros a b H. apply top_before in H. now apply (proj2 (tally_keys issues)). }
  split; [apply Hfwd|].
  intros [i [j [Hi [Hj Hij]]]].
  assert (Hne : (u, c) <> (v, c)).
  { intros Heq. injection Heq as ->. rewrite Hi in Hj. injection Hj as ->. lia. }
  destruct (@before_total _ _ _ _ Hne Hu Hv) as [H|H]; [exact H|].
  destruct (Hfwd _ _ H) as [j' [i' [Hj' [Hi' Hlt]]]].
  rewrite Hi in Hi'. rewrite Hj in Hj'.
  injection Hi' as <-. injection Hj' as <-. lia.
Qed.

End Encounters.

Lemma count_users_split (issues : list Issue) (a r : Dict.t Z) :
  fold_left count_users issues (a, r)
  = (tally assignee issues a, tally reporter issues r).
Proof.
  revert a r. induction issues as [|x issues IH]; intros a r; [reflexivity|].
  cbn [fold_left tally]. unfold count_users at 2. rewrite IH. reflexivity.
Qed.

(** C8.  In the rankings of assignees and of reporters, for every length
    [top_n], two users with the same count stand in the order in which the
    issue list first shows them. *)
Theorem ranking_ties_in_first_encounter_order (issues : list Issue) (top_n : Z) :
  ties_in_encounter_order assignee issues
    (fst (generate_user_task_distribution issues top_n))
  /\ ties_in_encounter_order reporter issues
       (snd (generate_user_task_distribution issues top_n)).
Proof.
  unfold generate_user_task_distribution. rewrite count_users_split.
  cbn [fst snd]. split; apply top_ties.
Qed.

(** On the board "bob" and "cid" both have two tasks and "bob" is met first;
    among the reporters "eve" and "ann" tie and "eve" is met first. *)
Example ranking_of_board :
  generate_user_task_distribution board 30
  = ([ ("bob", 2); ("cid", 2); ("ann", 1) ], [ ("eve", 2); ("ann", 2) ])
  /\ generate_user_task_distribution board 2
     = ([ ("bob", 2); ("cid", 2) ], [ ("eve", 2); ("ann", 2) ]).
Proof. split; reflexivity. Qed.

(* ================================================================== *)
(** ** The order of texts *)

Lemma ascii_compare_refl (a : ascii) : Ascii.compare a a = Eq.
Proof. unfold Ascii.compare. apply N.compare_refl. Qed.

Lemma ascii_compare_lt_trans (a b c : ascii) :
  Ascii.compare a b = Lt -> Ascii.compare b c = Lt -> Ascii.compare a c = Lt.
Proof.
  unfold Ascii.compare. rewrite !N.compare_lt_iff. apply N.lt_trans.
Qed.

Lemma string_compare_refl (s : string) : String.compare s s = Eq.
Proof.
  induction s as [|c s IH]; [reflexivity|]. cbn. now rewrite ascii_compare_refl.
Qed.

Lemma string_compare_lt_trans (a b c : string) :
  String.compare a b = Lt -> String.compare b c = Lt -> String.compare a c = Lt.
Proof.
  revert b c. induction a as [|x a IH]; intros [|y b] [|z c]; cbn;
    try discriminate; try reflexivity.
  destruct (Ascii.compare x y) eqn:Exy; try discriminate;
    destruct (Ascii.compare y z) eqn:Eyz; try discriminate; intros H1 H2.
  - apply Ascii.compare_eq_iff in Exy, Eyz. subst.
    rewrite ascii_compare_refl. now apply IH with b.
  - apply Ascii.compare_eq_iff in Exy. subst. now rewrite Eyz.
  - apply Ascii.compare_eq_iff in Eyz. subst. now rewrite Exy.
  - now rewrite (ascii_compare_lt_trans _ _ _ Exy Eyz).
Qed.

Lemma string_leb_trans (a b c : string) :
  String.leb a b = true -> String.leb b c = true -> String.leb a c = true.
Proof.
  unfold String.leb.
  destruct (String.compare a b) eqn:Eab; try discriminate;
    destruct (String.compare b c) eqn:Ebc; try discriminate; intros _ _.
  - apply String.compare_eq_iff in Eab, Ebc. subst. now rewrite string_compare_refl.
  - apply String.compare_eq_iff in Eab. subst. now rewrite Ebc.
  - apply String.compare_eq_iff in Ebc. subst. now rewrite Eab.
  - now rewrite (string_compare_lt_trans _ _ _ Eab Ebc).
Qed.

Lemma string_ltb_leb (a b : string) :
  String.ltb a b = true -> String.leb a b = true.
Proof. unfold String.ltb, String.leb. now destruct (String.compare a b). Qed.

Lemma string_not_ltb_leb (a b : string) :
  String.ltb a b = false -> String.leb b a = true.
Proof.
  unfold String.ltb, String.leb. rewrite (String.compare_antisym b a).
  now destruct (String.compare a b).
Qed.

(* ================================================================== *)
(** ** Stable sorting *)

Section SortedOutput.
Variable A : Type.
Variable precedes : A -> A -> bool.
Variable R : A -> A -> Prop.
Hypothesis precedes_R : forall y x, precedes y x = true -> R y x.
Hypothesis not_precedes_R : forall y x, precedes y x = false -> R x y.

Lemma insert_stable_HdRel (x y : A) (l : list A) :
  R y x -> HdRel R y l -> HdRel R y (insert_stable precedes x l).
Proof.
  intros Hyx Hhd. destruct l as [|z l]; cbn.
  - now constructor.
  - destruct (precedes z x); constructor; [now inversion Hhd | exact Hyx].
Qed.

Lemma insert_stable_Sorted (x : A) (l : list A) :
  Sorted R l -> Sorted R (insert_stable precedes x l).
Proof.
  induction l as [|y l IH]; intros Hs; cbn.
  - repeat constructor.
  - inversion Hs as [|? ? Hl Hhd]; subst.
    destruct (precedes y x) eqn:Hy.
    + constructor; [now apply IH|]. apply insert_stable_HdRel; [|exact Hhd].
      now apply precedes_R.
    + constructor; [exact Hs|]. constructor. now apply not_precedes_R.
Qed.

Lemma stable_sort_Sorted (l : list A) : Sorted R (stable_sort precedes l).
Proof.
  induction l as [|x l IH]; [constructor|].
  cbn [stable_sort fold_right]. now apply insert_stable_Sorted.
Qed.

End SortedOutput.

Lemma insert_stable_Permutation (A : Type) (precedes : A -> A -> bool)
  (x : A) (l : list A) :
  Permutation (insert_stable precedes x l) (x :: l).
Proof.
  induction l as [|y l IH]; cbn; [reflexivity|].
  destruct (precedes y x); [|reflexivity].
  rewrite IH. apply perm_swap.
Qed.

Lemma stable_sort_Permutation (A : Type) (precedes : A -> A -> bool)
  (l : list A) :
  Permutation (stable_sort precedes l) l.
Proof.
  induction l as [|x l IH]; [reflexivity|].
  cbn [stable_sort fold_right]. fold (stable_sort precedes l).
  now rewrite insert_stable_Permutation, IH.
Qed.

(* ================================================================== *)
(** ** The transitions of an issue *)

Lemma status_transitions_map (k : string) (h : History) :
  status_transitions k h
  = map (fun item => {| issue_key := k; timestamp := history_created h;
                        from_status := fromString item;
                        to_status := toString item |})
        (filter (fun item => match item_field item with
                             | Some f => String.eqb f "status"
                             | None => false
                             end) (history_items h)).
Proof.
  unfold status_transitions. induction (history_items h) as [|item items IH];
    [reflexivity|].
  cbn [flat_map filter]. rewrite IH.
  destruct (item_field item) as [f|]; [|reflexivity].
  now destruct (String.eqb f "status").
Qed.

(** X1.  [get_issue_transitions] returns its transitions in the order of the
    texts of their stamps: of two transitions the earlier in the list never
    has the greater text. *)
Theorem transitions_sorted_by_stamp_text (changelog : string -> list History)
  (k : string) :
  StronglySorted (fun a b => String.leb (timestamp a) (timestamp b) = true)
    (get_issue_transitions changelog k).
Proof.
  apply Sorted_StronglySorted.
  - intros a b c. apply string_leb_trans.
  - unfold get_issue_transitions. apply stable_sort_Sorted.
    + intros y x. apply string_ltb_leb.
    + intros y x. apply string_not_ltb_leb.
Qed.

(** X2.  The transitions returned are the items of the changelog whose field
    is "status", each one once, with the requested key, the stamp of its
    history and the two status names of the item; the items of other fields
    leave no trace. *)
Theorem transitions_are_the_status_items (changelog : string -> list History)
  (k : string) :
  Permutation (get_issue_transitions changelog k)
    (flat_map
       (fun h =>
          map (fun item => {| issue_key := k; timestamp := history_created h;
                              from_status := fromString item;
                              to_status := toString item |})
              (filter (fun item => match item_field item with
                                   | Some f => String.eqb f "status"
                                   | None => false
                                   end) (history_items h)))
       (changelog k)).
Proof.
  unfold get_issue_transitions. rewrite stable_sort_Permutation.
  induction (changelog k) as [|h hs IH]; [reflexivity|].
  cbn [flat_map]. now rewrite status_transitions_map, IH.
Qed.

(** X3.  The sort is stable: two transitions with the same stamp text stand
    in the order in which the changelog lists them. *)
Theorem transitions_with_equal_stamps_keep_order
  (changelog : string -> list History) (k : string) (a b : Transition) :
  timestamp a = timestamp b ->
  before a b (get_issue_transitions changelog k) ->
  before a b (flat_map (status_transitions k) (changelog k)).
Proof.
  intros Hsame. unfold get_issue_transitions. apply stable_sort_before.
  unfold String.ltb. now rewrite Hsame, string_compare_refl.
Qed.

Lemma transitions_carry_key (changelog : string -> list History) (k : string)
  (tr : Transition) :
  In tr (get_issue_transitions changelog k) -> issue_key tr = k.
Proof.
  unfold get_issue_transitions. rewrite stable_sort_In, in_flat_map.
  intros [h [_ Hin]]. rewrite status_transitions_map in Hin.
  apply in_map_iff in Hin as [item [<- _]]. reflexivity.
Qed.

Lemma filter_all (A : Type) (f : A -> bool) (l : list A) :
  (forall x, In x l -> f x = true) -> filter f l = l.
Proof.
  induction l as [|x l IH]; intros H; [reflexivity|]. cbn.
  rewrite (H x (or_introl eq_refl)), IH; [reflexivity|].
  intros y Hy. apply H. now right.
Qed.

Lemma filter_none (A : Type) (f : A -> bool) (l : list A) :
  (forall x, In x l -> f x = false) -> filter f l = [].
Proof.
  induction l as [|x l IH]; intros H; [reflexivity|]. cbn.
  rewrite (H x (or_introl eq_refl)). apply IH.
  intros y Hy. apply H. now right.
Qed.

(** X4.  From the list [get_all_transitions_for_project] builds for issues
    with distinct keys, the transitions of one issue are got back, in their
    order, by selecting on ['issue_key']. *)
Theorem project_transitions_split_by_key (changelog : string -> list History)
  (project_key : string) (issues : list Issue) (issue : Issue) :
  NoDup (map key issues) ->
  In issue issues ->
  filter (fun tr => String.eqb (issue_key tr) (key issue))
    (get_all_transitions_for_project changelog project_key issues)
  = get_issue_transitions changelog (key issue).
Proof.
  unfold get_all_transitions_for_project.
  induction issues as [|i issues IH]; intros Hnd Hin; [contradiction|].
  cbn [map] in Hnd. inversion Hnd as [|? ? Hfresh Hnd']; subst.
  cbn [flat_map]. rewrite filter_app.
  destruct Hin as [->|Hin].
  - rewrite filter_all.
    2:{ intros tr Htr. apply transitions_carry_key in Htr.
        rewrite Htr. apply String.eqb_refl. }
    rewrite filter_none; [apply app_nil_r|].
    intros tr Htr. apply in_flat_map in Htr as [j [Hj Htr]].
    apply transitions_carry_key in Htr. rewrite Htr.
    apply String.eqb_neq. intros Heq. apply Hfresh. rewrite <- Heq.
    now apply in_map.
  - rewrite filter_none; [cbn [app]; now apply IH|].
    intros tr Htr. apply transitions_carry_key in Htr. rewrite Htr.
    apply String.eqb_neq. intros Heq. apply Hfresh. rewrite Heq.
    now apply in_map.
Qed.

Lemma transitions_with_equal_stamps_keep_order_witness :
  before Cases.first_change Cases.second_change
    (flat_map (status_transitions "X-1") (Cases.log_twice "X-1")).
Proof.
  apply (transitions_with_equal_stamps_keep_order Cases.log_twice "X-1").
  - reflexivity.
  - exists [], [Cases.second_change]. split; [reflexivity | now left].
Defined.

Lemma project_transitions_split_by_key_witness :
  filter (fun tr => String.eqb (issue_key tr) (key Y))
    (get_all_transitions_for_project Cases.log_two "DEMO" [X; Y])
  = get_issue_transitions Cases.log_two (key Y).
Proof.
  apply project_transitions_split_by_key.
  - repeat constructor; cbn; intuition discriminate.
  - right. now left.
Defined.

(* ================================================================== *)
(** ** More on time in status *)

Section MoreOnTimeInStatus.
Variable changelog : string -> list History.
Variable parse : string -> datetime.

(** X5.  The status name of the issue itself never reaches the result: with
    no transition the map is empty, and with transitions the status is the one
    the last of them leads to. *)
Theorem status_field_is_not_read (F : Type) (PF : PyFloat F) (issue : Issue)
  (s : string) :
  calculate_time_in_status (F := F) changelog parse (with_status s issue)
  = calculate_time_in_status changelog parse issue.
Proof.
  unfold calculate_time_in_status. cbn [key created updated with_status].
  destruct (get_issue_transitions changelog (key issue)) as [|tr trs];
    reflexivity.
Qed.

(** X6.  [calculate_time_in_status] ends in [AttributeError] exactly when
    the issue has transitions and the last of them, in the order of the
    sort, has no [to_status]: a null [to_status] anywhere before the last is
    harmless, and so is an issue without transitions.  The stamps are taken
    to be readable. *)
Theorem raises_iff_last_to_status_null (F : Type) (PF : PyFloat F)
  (issue : Issue) :
  calculate_time_in_status (F := F) changelog parse issue = Raised AttributeError
  <-> exists rest tr,
        get_issue_transitions changelog (key issue) = (rest ++ [tr])%list
        /\ to_status tr = None.
Proof.
  rewrite calculate_time_in_status_unfold. cbv zeta. unfold status_after.
  destruct (get_issue_transitions changelog (key issue)) as [|tr0 trs] eqn:E.
  { split; [discriminate|].
    intros [rest [tr [H _]]]. destruct rest; discriminate. }
  destruct (@exists_last _ (tr0 :: trs)) as [rest [tr Hlast]]; [discriminate|].
  rewrite Hlast, map_app. cbn [map]. rewrite last_last.
  split.
  - intros H. exists rest, tr. split; [reflexivity|].
    destruct (to_status tr) as [s|]; [|reflexivity].
    destruct (names_closed_state s); discriminate.
  - intros [rest' [tr' [H Hnull]]]. apply app_inj_tail in H as [_ <-].
    now rewrite Hnull.
Qed.

End MoreOnTimeInStatus.

(* ================================================================== *)
(** ** Keys and values of the map *)

Lemma NoDup_keys_set (V : Type) (k : string) (v : V) (d : Dict.t V) :
  NoDup (Dict.keys d) -> NoDup (Dict.keys (Dict.set k v d)).
Proof.
  intros Hnd. rewrite keys_set. destruct (Dict.mem k d) eqn:Hmem; [exact Hnd|].
  apply NoDup_app; [exact Hnd | repeat constructor; intros [] |].
  intros x Hx [<-|[]]. apply mem_keys in Hx. congruence.
Qed.

Lemma In_keys_set (V : Type) (k k' : string) (v : V) (d : Dict.t V) :
  In k' (Dict.keys (Dict.set k v d)) <-> k' = k \/ In k' (Dict.keys d).
Proof.
  rewrite keys_set. destruct (Dict.mem k d) eqn:Hmem.
  - apply mem_keys in Hmem. split; [now right | intros [->|H]; assumption].
  - rewrite in_app_iff. cbn. intuition congruence.
Qed.

Section AccumulateFacts.
Context {F : Type} {PF : PyFloat F}.

Lemma accumulate_get_same (k : string) (x : F) (d : Dict.t F) :
  Dict.get k (accumulate k x d)
  = Some (f_add (match Dict.get k d with Some v => v | None => f_zero end) x).
Proof.
  unfold accumulate, Dict.mem. destruct (Dict.get k d) as [v|] eqn:Hget.
  - rewrite Hget. apply get_set_same.
  - rewrite get_set_same. apply get_set_same.
Qed.

Lemma accumulate_get_other (k k' : string) (x : F) (d : Dict.t F) :
  k' <> k -> Dict.get k' (accumulate k x d) = Dict.get k' d.
Proof.
  intros Hne. unfold accumulate, Dict.mem.
  destruct (Dict.get k d) as [v|] eqn:Hget.
  - rewrite Hget. now apply get_set_other.
  - rewrite get_set_same. now rewrite !get_set_other.
Qed.

(** X7.  Charging [x] to status [k] leaves under [k] what was there, or the
    initial 0, plus [x], and leaves every other status as it was; this holds
    for any arithmetic, binary64 included. *)
Theorem accumulate_lookup (k : string) (x : F) (d : Dict.t F) :
  Dict.get k (accumulate k x d)
  = Some (f_add (match Dict.get k d with Some v => v | None => f_zero end) x)
  /\ forall k', k' <> k -> Dict.get k' (accumulate k x d) = Dict.get k' d.
Proof.
  split; [apply accumulate_get_same | intros k'; apply accumulate_get_other].
Qed.

Lemma accumulate_keys (k k' : string) (x : F) (d : Dict.t F) :
  In k' (Dict.keys (accumulate k x d)) <-> k' = k \/ In k' (Dict.keys d).
Proof.
  unfold accumulate, Dict.mem. destruct (Dict.get k d) as [v|] eqn:Hget.
  - rewrite Hget. apply In_keys_set.
  - rewrite get_set_same, !In_keys_set. tauto.
Qed.

Lemma accumulate_NoDup (k : string) (x : F) (d : Dict.t F) :
  NoDup (Dict.keys d) -> NoDup (Dict.keys (accumulate k x d)).
Proof.
  intros Hnd. unfold accumulate, Dict.mem.
  destruct (Dict.get k d) as [v|] eqn:Hget.
  - rewrite Hget. now apply NoDup_keys_set.
  - rewrite get_set_same. now apply NoDup_keys_set, NoDup_keys_set.
Qed.

Variable changelog : string -> list History.
Variable parse : string -> datetime.

Lemma loop_NoDup (trs : list Transition) (st : Accounting F) :
  NoDup (Dict.keys (time_in_status st)) ->
  NoDup (Dict.keys (time_in_status (fold_left (account parse) trs st))).
Proof.
  revert st. induction trs as [|tr trs IH]; intros st Hst; [exact Hst|].
  cbn [fold_left]. apply IH. unfold account. cbn [time_in_status].
  destruct (from_status tr) as [from|]; [|exact Hst].
  destruct (String.eqb from ""); [exact Hst | now apply accumulate_NoDup].
Qed.

Lemma loop_keys (trs : list Transition) (st : Accounting F) (k : string) :
  In k (Dict.keys (time_in_status (fold_left (account parse) trs st)))
  <-> In k (Dict.keys (time_in_status st))
      \/ exists tr, In tr trs /\ from_status tr = Some k /\ k <> "".
Proof.
  revert st. induction trs as [|tr trs IH]; intros st.
  - cbn. split; [now left | intros [H|[tr [[] _]]]; exact H].
  - cbn [fold_left]. rewrite IH. unfold account. cbn [time_in_status].
    assert (Hhere : In k (Dict.keys
                (match from_status tr with
                 | Some from =>
                     if String.eqb from ""
                     then time_in_status st
                     else accumulate from
                            (in_days (dt_sub (parse (timestamp tr))
                                             (status_start_time st)))
                            (time_in_status st)
                 | None => time_in_status st
                 end))
              <-> In k (Dict.keys (time_in_status st))
                  \/ (from_status tr = Some k /\ k <> "")).
    { destruct (from_status tr) as [from|].
      - destruct (String.eqb_spec from "") as [->|Hne].
        + split; [now left | intros [H|[H1 H2]]; [exact H | congruence]].
        + rewrite accumulate_keys. split.
          * intros [->|H]; [right; now split | now left].
          * intros [H|[H1 H2]]; [now right | left; congruence].
      - split; [now left | intros [H|[H1 _]]; [exact H | discriminate]]. }
    rewrite Hhere. split.
    + intros [[H|[H1 H2]]|[tr' [Hin H]]].
      * now left.
      * right. exists tr. split; [now left | now split].
      * right. exists tr'. split; [now right | exact H].
    + intros [H|[tr' [[<-|Hin] H]]].
      * left. now left.
      * left. now right.
      * right. now exists tr'.
Qed.

Lemma calculate_keys_NoDup (issue : Issue) (m : Dict.t F) :
  calculate_time_in_status changelog parse issue = Returned m ->
  NoDup (Dict.keys m).
Proof.
  unfold calculate_time_in_status.
  destruct (get_issue_transitions changelog (key issue)) as [|tr trs].
  { intros H. injection H as <-. constructor. }
  set (st := fold_left (account parse) (tr :: trs) _).
  assert (Hst : NoDup (Dict.keys (time_in_status st)))
    by (apply loop_NoDup; constructor).
  destruct (current_status st) as [s|]; [|discriminate].
  destruct (names_closed_state s); intros H; injection H as <-.
  - now apply accumulate_NoDup.
  - exact Hst.
Qed.

(** X8.  The map never has a status twice. *)
Theorem returned_map_has_distinct_keys (issue : Issue) (m : Dict.t F) :
  calculate_time_in_status changelog parse issue = Returned m ->
  NoDup (Dict.keys m).
Proof. apply calculate_keys_NoDup. Qed.

(** X9.  For an issue with transitions, the statuses of the map are the
    non-empty [from_status] names of its transitions, and the status after
    the last transition when that is a closed state; nothing else, and in
    particular never the empty name. *)
Theorem returned_map_keys (issue : Issue) (tr0 : Transition)
  (rest : list Transition) (m : Dict.t F) :
  get_issue_transitions changelog (key issue) = tr0 :: rest ->
  calculate_time_in_status changelog parse issue = Returned m ->
  forall k, In k (Dict.keys m)
    <-> (exists tr, In tr (tr0 :: rest) /\ from_status tr = Some k /\ k <> "")
        \/ (status_after issue (tr0 :: rest) = Some k
            /\ names_closed_state k = true).
Proof.
  intros Htrs. rewrite calculate_time_in_status_unfold, Htrs. cbv zeta.
  destruct (status_after issue (tr0 :: rest)) as [s|]; [|discriminate].
  intros H k.
  pose proof (loop_keys (tr0 :: rest)
                {| time_in_status := Dict.empty F;
                   status_start_time := parse (created issue);
                   current_status := Some (status_name issue) |} k) as Hk.
  cbn [time_in_status] in Hk.
  assert (Hnone : ~ In k (Dict.keys (Dict.empty F))) by (intros []).
  destruct (names_closed_state s) eqn:Hclosed; injection H as <-.
  - rewrite accumulate_keys, Hk. split.
    + intros [->|[H|H]]; [right; now split | contradiction | now left].
    + intros [H|[H _]]; [right; now right | left; congruence].
  - rewrite Hk. split.
    + intros [H|H]; [contradiction | now left].
    + intros [H|[H Hc]]; [now right | congruence].
Qed.

End AccumulateFacts.

Section ValuesOfTheMap.
Variable changelog : string -> list History.
Variable parse : string -> datetime.

Lemma value_of_accumulate (k k' : string) (x : Qc) (d : Dict.t Qc) :
  value_of k (accumulate k' x d)
  = (value_of k d + (if String.eqb k' k then x else Q2Qc 0))%Qc.
Proof.
  unfold value_of. destruct (String.eqb_spec k' k) as [->|Hne].
  - rewrite accumulate_get_same. cbn [f_add f_zero PyFloat_Qc].
    destruct (Dict.get k d); ring.
  - rewrite accumulate_get_other by congruence. destruct (Dict.get k d); ring.
Qed.

Lemma loop_value (k : string) (trs : list Transition) (st : Accounting Qc) :
  value_of k (time_in_status (fold_left (account parse) trs st))
  = (value_of k (time_in_status st)
     + charged parse k (status_start_time st) trs)%Qc.
Proof.
  revert st. induction trs as [|tr trs IH]; intros st.
  - cbn [fold_left charged]. ring.
  - cbn [fold_left charged]. rewrite IH.
    change (status_start_time (account parse st tr)) with (time_of parse tr).
    unfold account. cbn [time_in_status]. unfold time_of.
    destruct (from_status tr) as [from|]; [|ring].
    destruct (String.eqb from "") eqn:Hempty; cbn [negb].
    + rewrite andb_false_r. ring.
    + rewrite andb_true_r, value_of_accumulate.
      destruct (String.eqb from k); ring.
Qed.

(** X10.  For an issue with transitions, the map holds for each status the
    total of the intervals that end at a transition out of that status, each
    measured from the transition before it (the first from the creation), plus
    the interval from the last transition to the update for the status the
    issue ends in, when that is a closed state.  A status the map does not
    have counts as 0.  In exact arithmetic. *)
Theorem time_charged_to_each_status (issue : Issue) (tr0 : Transition)
  (rest : list Transition) (s : string) :
  get_issue_transitions changelog (key issue) = tr0 :: rest ->
  status_after issue (tr0 :: rest) = Some s ->
  exists m,
    calculate_time_in_status (F := Qc) changelog parse issue = Returned m
    /\ forall k,
         value_of k m
         = (charged parse k (parse (created issue)) (tr0 :: rest)
            + (if names_closed_state s && String.eqb s k
               then in_days (dt_sub (parse (updated issue))
                                    (time_after parse issue (tr0 :: rest)))
               else Q2Qc 0))%Qc.
Proof.
  intros Htrs Hstatus.
  rewrite calculate_time_in_status_unfold, Htrs. cbv zeta. rewrite Hstatus.
  assert (Hloop : forall k,
            value_of k (time_in_status
              (fold_left (account parse) (tr0 :: rest)
                 {| time_in_status := Dict.empty Qc;
                    status_start_time := parse (created issue);
                    current_status := Some (status_name issue) |}))
            = charged parse k (parse (created issue)) (tr0 :: rest)).
  { intros k. rewrite loop_value. cbn [time_in_status status_start_time].
    change (value_of k (Dict.empty Qc)) with (Q2Qc 0). ring. }
  destruct (names_closed_state s); eexists; (split; [reflexivity|]); intros k.
  - rewrite value_of_accumulate, Hloop. reflexivity.
  - rewrite Hloop. cbn [andb]. ring.
Qed.

End ValuesOfTheMap.

Lemma returned_map_has_distinct_keys_witness :
  NoDup (Dict.keys [ ("Open", 2%float); ("In Progress", 7%float); ("Done", 0%float) ]).
Proof.
  apply (returned_map_has_distinct_keys log_X Iso8601.parse X).
  vm_compute. reflexivity.
Defined.

Lemma returned_map_keys_witness :
  In "Done" ["Open"; "In Progress"; "Done"]
  <-> (exists tr, In tr (get_issue_transitions log_X (key X))
                  /\ from_status tr = Some "Done" /\ "Done" <> "")
      \/ (status_after X (get_issue_transitions log_X (key X)) = Some "Done"
          /\ names_closed_state "Done" = true).
Proof.
  apply (returned_map_keys (F := float) log_X Iso8601.parse X
           (m := [ ("Open", 2%float); ("In Progress", 7%float); ("Done", 0%float) ])).
  - reflexivity.
  - vm_compute. reflexivity.
Defined.

Lemma time_charged_to_each_status_witness :
  exists m,
    calculate_time_in_status (F := Qc) log_X Iso8601.parse X = Returned m
    /\ value_of "Open" m = Q2Qc 2 /\ value_of "In Progress" m = Q2Qc 7
    /\ value_of "Done" m = Q2Qc 0 /\ value_of "Review" m = Q2Qc 0.
Proof.
  destruct (time_charged_to_each_status log_X Iso8601.parse X
              (tr0 := mk_transition "X-1" "2024-01-03T00:00:00Z"
                        (Some "Open") (Some "In Progress"))
              (rest := [ mk_transition "X-1" "2024-01-10T00:00:00Z"
                           (Some "In Progress") (Some "Done") ])
              (s := "Done") eq_refl eq_refl) as [m [Hret Hval]].
  exists m. split; [exact Hret|].
  repeat split; rewrite Hval; apply Qc_is_canon; vm_compute; reflexivity.
Defined.

(* ================================================================== *)
(** ** The reports on closed issues *)

Lemma closed_issues_idempotent (issues : list Issue) :
  closed_issues (closed_issues issues) = closed_issues issues.
Proof.
  unfold closed_issues. apply filter_all.
  intros x Hx. now apply filter_In in Hx.
Qed.

Lemma open_durations_map (F : Type) (PF : PyFloat F)
  (parse : string -> datetime) (issues : list Issue) :
  open_durations parse issues
  = map (fun issue => in_days (dt_sub (parse (updated issue))
                                      (parse (created issue))))
        (closed_issues issues).
Proof.
  unfold open_durations, closed_issues.
  induction issues as [|i issues IH]; [reflexivity|].
  cbn [flat_map filter]. rewrite IH, calculate_open_duration_eq.
  now destruct (names_closed_state (status_name i)).
Qed.

(** X11.  The open-duration histogram has one sample for every issue in a
    closed state, in the order of the issues, and none for the others, so the
    selection of closed issues that [run_full_analysis] makes beforehand
    changes nothing; there is nothing to draw exactly when no issue is in a
    closed state. *)
Theorem open_duration_samples (F : Type) (PF : PyFloat F)
  (parse : string -> datetime) (issues : list Issue) :
  open_durations (F := F) parse issues
  = map (fun issue => in_days (dt_sub (parse (updated issue))
                                      (parse (created issue))))
        (closed_issues issues)
  /\ open_durations (F := F) parse (closed_issues issues)
     = open_durations parse issues
  /\ (generate_open_duration_histogram (F := F) parse issues = None
      <-> closed_issues issues = []).
Proof.
  split; [apply open_durations_map|]. split.
  - now rewrite !open_durations_map, closed_issues_idempotent.
  - unfold generate_open_duration_histogram. rewrite open_durations_map.
    destruct (closed_issues issues); cbn; split; congruence.
Qed.

Section StatusTimeSamples.
Context {F : Type} {PF : PyFloat F}.
Variable changelog : string -> list History.
Variable parse : string -> datetime.

Lemma samples_of_append (s k : string) (v : F) (all : Dict.t (list F)) :
  samples_of s (append_sample all (k, v))
  = (samples_of s all ++ (if String.eqb s k then [v] else []))%list.
Proof.
  unfold samples_of, append_sample.
  destruct (String.eqb_spec s k) as [->|Hne].
  - now rewrite get_set_same.
  - rewrite get_set_other by exact Hne. now rewrite app_nil_r.
Qed.

(** One issue adds to a status the value its map has for it, if any. *)
Lemma samples_of_fold (s : string) (m : Dict.t F) (all : Dict.t (list F)) :
  NoDup (Dict.keys m) ->
  samples_of s (fold_left append_sample m all)
  = (samples_of s all
     ++ match Dict.get s m with Some v => [v] | None => [] end)%list.
Proof.
  revert all. induction m as [|[k v] m IH]; intros all Hnd.
  - cbn. now rewrite app_nil_r.
  - cbn [Dict.keys map fst] in Hnd. inversion Hnd as [|? ? Hfresh Hnd']; subst.
    cbn [fold_left Dict.get]. rewrite (IH _ Hnd'), samples_of_append.
    destruct (String.eqb_spec s k) as [->|Hne].
    + assert (Hnone : Dict.get k m = None).
      { destruct (Dict.get k m) eqn:E; [|reflexivity].
        exfalso. apply Hfresh. apply mem_keys. unfold Dict.mem. now rewrite E. }
      rewrite Hnone. now rewrite app_nil_r.
    + now rewrite app_nil_r.
Qed.

Lemma collect_status_times_samples (issues : list Issue)
  (all : Dict.t (list F)) :
  Forall (fun issue => calculate_time_in_status (F := F) changelog parse issue
                       <> Raised AttributeError) issues ->
  exists result,
    collect_status_times changelog parse issues all = Returned result
    /\ forall s,
         samples_of s result
         = (samples_of s all
            ++ flat_map
                 (fun issue =>
                    match calculate_time_in_status changelog parse issue with
                    | Returned m =>
                        match Dict.get s m with Some v => [v] | None => [] end
                    | Raised _ => []
                    end) issues)%list.
Proof.
  intros Hok. revert all. induction Hok as [|i issues Hi _ IH]; intros all.
  - exists all. split; [reflexivity|]. intros s. cbn. now rewrite app_nil_r.
  - cbn [collect_status_times flat_map].
    destruct (calculate_time_in_status changelog parse i) as [m|[]] eqn:Hm;
      [|congruence].
    destruct (IH (fold_left append_sample m all)) as [result [Hret Hs]].
    exists result. split; [exact Hret|]. intros s.
    rewrite Hs, samples_of_fold by (eapply calculate_keys_NoDup; exact Hm).
    now rewrite app_assoc.
Qed.

(** X12.  When no issue of the list ends in [AttributeError], the status-time
    report holds, for every status, one sample from each issue whose map has
    that status, namely the value of that map, in the order of the issues. *)
Theorem status_time_samples (issues : list Issue) :
  Forall (fun issue => calculate_time_in_status (F := F) changelog parse issue
                       <> Raised AttributeError) issues ->
  exists result,
    generate_status_time_distribution changelog parse issues = Returned result
    /\ forall s,
         samples_of s result
         = flat_map
             (fun issue =>
                match calculate_time_in_status changelog parse issue with
                | Returned m =>
                    match Dict.get s m with Some v => [v] | None => [] end
                | Raised _ => []
                end) issues.
Proof.
  intros Hok. unfold generate_status_time_distribution.
  destruct (collect_status_times_samples (Dict.empty (list F)) Hok)
    as [result [Hret Hs]].
  exists result. split; [exact Hret|]. intros s. now rewrite Hs.
Qed.

(** X13.  One issue whose last transition has no [to_status] costs the whole
    report: the loop ends in [AttributeError] and the samples of the issues
    before it are lost with it. *)
Theorem status_time_report_lost (before_it after_it : list Issue) (issue : Issue) :
  Forall (fun i => calculate_time_in_status (F := F) changelog parse i
                   <> Raised AttributeError) before_it ->
  calculate_time_in_status (F := F) changelog parse issue = Raised AttributeError ->
  generate_status_time_distribution (F := F) changelog parse
    (before_it ++ issue :: after_it)
  = Raised AttributeError.
Proof.
  intros Hok Hbad. unfold generate_status_time_distribution.
  generalize (Dict.empty (list F)) as all.
  induction Hok as [|i issues Hi _ IH]; intros all; cbn.
  - now rewrite Hbad.
  - destruct (calculate_time_in_status changelog parse i) as [m|[]];
      [apply IH | congruence].
Qed.

End StatusTimeSamples.

Lemma status_time_samples_witness :
  exists result,
    generate_status_time_distribution (F := float) Cases.log_two Iso8601.parse [X; Y]
    = Returned result
    /\ samples_of "Open" result = [2%float; 2%float]
    /\ samples_of "In Progress" result = [7%float]
    /\ samples_of "Done" result = [0%float]
    /\ samples_of "Review" result = [].
Proof.
  destruct (status_time_samples (F := float) Cases.log_two Iso8601.parse
              (issues := [X; Y])) as [result [Hret Hs]].
  - repeat constructor; vm_compute; discriminate.
  - exists result. split; [exact Hret|].
    repeat split; rewrite Hs; vm_compute; reflexivity.
Defined.

Lemma status_time_report_lost_witness :
  generate_status_time_distribution (F := float) Cases.log_open_end Iso8601.parse
    ([] ++ X :: [Y])
  = Raised AttributeError.
Proof.
  apply status_time_report_lost.
  - constructor.
  - vm_compute. reflexivity.
Defined.

(* ================================================================== *)
(** ** The running totals of the daily trend *)

Lemma within_point (l : list Z) (a : Z) : within l a a = count l a.
Proof.
  unfold within, count. f_equal. induction l as [|x l IH]; [reflexivity|].
  cbn [filter count_occ]. destruct (Z.eq_dec x a) as [->|Hne].
  - rewrite Z.leb_refl. cbn. now rewrite IH.
  - replace ((a <=? x) && (x <=? a)) with false; [exact IH|].
    symmetry. apply andb_false_iff.
    destruct (Z.leb_spec a x); [right; apply Z.leb_gt; lia | now left].
Qed.

Lemma within_step (l : list Z) (a b : Z) :
  a <= b -> count l a + within l (a + 1) b = within l a b.
Proof.
  intros Hab. unfold within, count. induction l as [|x l IH]; [reflexivity|].
  cbn [filter count_occ].
  destruct (Z.eq_dec x a) as [->|Hne].
  - replace (a + 1 <=? a) with false by (symmetry; apply Z.leb_gt; lia).
    rewrite Z.leb_refl. replace (a <=? b) with true by (symmetry; now apply Z.leb_le).
    cbn [andb List.length]. lia.
  - destruct (Z.leb_spec (a + 1) x), (Z.leb_spec a x), (Z.leb_spec x b);
      cbn [andb List.length]; lia.
Qed.

Lemma range_shift (a : Z) (n : nat) :
  map (fun j => a + Z.of_nat j) (seq 1 n)
  = map (fun j => a + 1 + Z.of_nat j) (seq 0 n).
Proof.
  rewrite <- seq_shift, map_map. apply map_ext. intros j. lia.
Qed.

(** The running sum at place [i] counts the members up to the day there. *)
Lemma cumsum_range (l : list Z) (n : nat) (a acc : Z) (i : nat) :
  (i < n)%nat ->
  nth_error (cumsum_from acc
               (map (count l) (map (fun j => a + Z.of_nat j) (seq 0 n)))) i
  = Some (acc + within l a (a + Z.of_nat i)).
Proof.
  revert a acc i. induction n as [|n IH]; intros a acc i Hi; [lia|].
  cbn [seq map cumsum_from]. rewrite range_shift.
  replace (a + Z.of_nat 0) with a by lia.
  destruct i as [|i]; cbn [nth_error].
  - replace (a + Z.of_nat 0) with a by lia. now rewrite within_point.
  - rewrite IH by lia. f_equal.
    replace (a + 1 + Z.of_nat i) with (a + Z.of_nat (S i)) by lia.
    rewrite <- (within_step l (a := a) (b := a + Z.of_nat (S i))) by lia. lia.
Qed.

Lemma within_map (A : Type) (f : A -> Z) (l : list A) (a b : Z) :
  (forall x, In x l -> a <= f x) ->
  within (map f l) a b = Z.of_nat (List.length (filter (fun x => f x <=? b) l)).
Proof.
  unfold within. intros Hlow. f_equal.
  induction l as [|x l IH]; [reflexivity|]. cbn [map filter].
  replace (a <=? f x) with true
    by (symmetry; apply Z.leb_le, Hlow; now left).
  cbn [andb]. destruct (f x <=? b); cbn [List.length];
    rewrite IH; try reflexivity; intros y Hy; apply Hlow; now right.
Qed.

Lemma within_selected (A : Type) (c : A -> bool) (f : A -> Z) (l : list A)
  (a b : Z) :
  (forall x, In x l -> c x = true -> a <= f x) ->
  within (flat_map (fun x => if c x then [f x] else []) l) a b
  = Z.of_nat (List.length (filter (fun x => c x && (f x <=? b)) l)).
Proof.
  unfold within. intros Hlow. f_equal.
  induction l as [|x l IH]; [reflexivity|]. cbn [flat_map filter].
  assert (Hrest : forall y, In y l -> c y = true -> a <= f y)
    by (intros y Hy; apply Hlow; now right).
  destruct (c x) eqn:Hc; cbn [app andb filter]; [|now apply IH].
  replace (a <=? f x) with true
    by (symmetry; apply Z.leb_le, Hlow; [now left | exact Hc]).
  cbn [andb]. destruct (f x <=? b); cbn [List.length]; now rewrite IH.
Qed.

Lemma filter_length_le (A : Type) (f g : A -> bool) (l : list A) :
  (forall x, In x l -> f x = true -> g x = true) ->
  (List.length (filter f l) <= List.length (filter g l))%nat.
Proof.
  induction l as [|x l IH]; intros H; [apply Nat.le_refl|]. cbn [filter].
  assert (Hl : (List.length (filter f l) <= List.length (filter g l))%nat)
    by (apply IH; intros y Hy; apply H; now right).
  destruct (f x) eqn:Hf.
  - rewrite (H x (or_introl eq_refl) Hf). cbn. lia.
  - destruct (g x); cbn; lia.
Qed.

Section RunningTotals.
Variable parse : string -> datetime.

(** The trend of a non-empty issue list, with what its series hold. *)
Lemma trend_frame (issues : list Issue) :
  issues <> [] ->
  exists r lo hi,
    generate_daily_task_trend parse issues = Some r
    /\ observed parse issues lo
    /\ (forall d, observed parse issues d -> lo <= d <= hi)
    /\ List.length (date_range r) = Z.to_nat (hi - lo + 1)
    /\ List.length (cumulative_created r) = List.length (date_range r)
    /\ List.length (cumulative_closed r) = List.length (date_range r)
    /\ forall i d, nth_error (date_range r) i = Some d ->
         d = lo + Z.of_nat i
         /\ nth_error (cumulative_created r) i = Some (created_by parse issues d)
         /\ nth_error (cumulative_closed r) i = Some (closed_by parse issues d).
Proof.
  intros Hne. unfold generate_daily_task_trend. cbv zeta.
  pose proof (observed_iff parse issues) as Hobs.
  set (created_dates := map (fun issue => date_of (parse (created issue))) issues) in *.
  set (closed_dates :=
         flat_map (fun issue => if names_closed_state (status_name issue)
                                then [date_of (parse (updated issue))] else [])
                  issues) in *.
  destruct (created_dates ++ closed_dates)%list as [|d0 all_dates] eqn:Hall.
  { destruct issues; [congruence | discriminate]. }
  destruct (min_date_spec d0 all_dates) as [Hmin_in Hmin].
  destruct (max_date_spec d0 all_dates) as [_ Hmax].
  eexists. exists (min_date d0 all_dates), (max_date d0 all_dates).
  split; [reflexivity|].
  cbn [date_range cumulative_created cumulative_closed].
  assert (Hcl : forall acc l, List.length (cumsum_from acc l) = List.length l).
  { intros acc l. revert acc. induction l as [|x l IH]; intros acc; cbn;
      [reflexivity | now rewrite IH]. }
  split; [now apply Hobs|].
  split. { intros x Hx. apply Hobs in Hx. split; [now apply Hmin | now apply Hmax]. }
  split; [apply pd_date_range_length|].
  unfold cumsum. rewrite !Hcl, !length_map.
  split; [reflexivity|]. split; [reflexivity|].
  intros i d Hi.
  assert (Hd : d = min_date d0 all_dates + Z.of_nat i)
    by (now apply pd_date_range_nth in Hi).
  assert (Hlen : (i < Z.to_nat (max_date d0 all_dates - min_date d0 all_dates + 1))%nat).
  { rewrite <- pd_date_range_length. apply nth_error_Some. congruence. }
  split; [exact Hd|].
  unfold pd_date_range. rewrite !cumsum_range by exact Hlen.
  rewrite <- Hd. cbn [Z.add]. split; f_equal.
  - unfold created_dates, created_by. apply within_map.
    intros x Hx. apply Hmin, Hobs. exists x. split; [exact Hx | now left].
  - unfold closed_dates, closed_by. apply within_selected.
    intros x Hx Hc. apply Hmin, Hobs. exists x. split; [exact Hx | right; now split].
Qed.

(** X14.  At every day of the range the cumulative series hold the number
    of issues created on that day or before, and the number of issues in a
    closed state whose update is on that day or before. *)
Theorem cumulative_series_count_up_to_day (issues : list Issue) :
  issues <> [] ->
  exists r,
    generate_daily_task_trend parse issues = Some r
    /\ forall i d, nth_error (date_range r) i = Some d ->
         nth_error (cumulative_created r) i = Some (created_by parse issues d)
         /\ nth_error (cumulative_closed r) i = Some (closed_by parse issues d).
Proof.
  intros Hne.
  destruct (trend_frame Hne) as [r [lo [hi [Hret [_ [_ [_ [_ [_ Hcum]]]]]]]]].
  exists r. split; [exact Hret|]. intros i d Hd. now apply Hcum.
Qed.

(** X15.  The cumulative series end at the number of issues and at the number
    of issues in a closed state: no creation and no closure falls outside the
    range. *)
Theorem cumulative_series_end_at_totals (issues : list Issue) :
  issues <> [] ->
  exists r,
    generate_daily_task_trend parse issues = Some r
    /\ last (cumulative_created r) 0 = Z.of_nat (List.length issues)
    /\ last (cumulative_closed r) 0
       = Z.of_nat (List.length (closed_issues issues)).
Proof.
  intros Hne.
  destruct (trend_frame Hne)
    as [r [lo [hi [Hret [Hlo [Hbounds [Hlen [Hl1 [Hl2 Hcum]]]]]]]]].
  exists r. split; [exact Hret|].
  assert (Hspan : lo <= hi) by (apply (Hbounds lo Hlo)).
  set (n := Z.to_nat (hi - lo)).
  assert (Hn : List.length (date_range r) = S n) by (rewrite Hlen; unfold n; lia).
  destruct (nth_error (date_range r) n) as [d|] eqn:Hd.
  2:{ apply nth_error_None in Hd. lia. }
  destruct (Hcum _ _ Hd) as [Hdn [Hc1 Hc2]].
  assert (Hdhi : d = hi) by (unfold n in Hdn; lia).
  assert (Hlast : forall l : list Z, List.length l = S n ->
            forall x, nth_error l n = Some x -> last l 0 = x).
  { intros l Hll x Hx. destruct (@exists_last _ l) as [l' [y Hy]].
    { intros ->. discriminate. }
    subst l. rewrite last_last. rewrite length_app in Hll. cbn in Hll.
    rewrite nth_error_app2 in Hx by lia.
    replace (n - List.length l')%nat with O in Hx by lia.
    now injection Hx. }
  rewrite (Hlast _ (eq_trans Hl1 Hn) _ Hc1), (Hlast _ (eq_trans Hl2 Hn) _ Hc2).
  rewrite Hdhi. unfold created_by, closed_by, closed_issues. split; do 2 f_equal.
  - apply filter_all. intros x Hx. apply Z.leb_le.
    apply (Hbounds (date_of (parse (created x)))).
    exists x. split; [exact Hx | now left].
  - apply filter_ext_in. intros x Hx.
    destruct (names_closed_state (status_name x)) eqn:Hc; [|reflexivity].
    cbn [andb]. apply Z.leb_le.
    apply (Hbounds (date_of (parse (updated x)))).
    exists x. split; [exact Hx | right; now split].
Qed.

(** X16.  When no issue in a closed state is updated on a day before its
    creation, the closed series never runs ahead of the created series. *)
Theorem closed_never_ahead_of_created (issues : list Issue) :
  issues <> [] ->
  (forall issue, In issue issues ->
     names_closed_state (status_name issue) = true ->
     date_of (parse (created issue)) <= date_of (parse (updated issue))) ->
  exists r,
    generate_daily_task_trend parse issues = Some r
    /\ forall i x y, nth_error (cumulative_closed r) i = Some x ->
         nth_error (cumulative_created r) i = Some y -> x <= y.
Proof.
  intros Hne Hdates.
  destruct (trend_frame Hne)
    as [r [lo [hi [Hret [_ [_ [_ [Hl1 [_ Hcum]]]]]]]]].
  exists r. split; [exact Hret|]. intros i x y Hx Hy.
  destruct (nth_error (date_range r) i) as [d|] eqn:Hd.
  2:{ apply nth_error_None in Hd. rewrite <- Hl1 in Hd.
      apply nth_error_None in Hd. congruence. }
  destruct (Hcum _ _ Hd) as [_ [Hc1 Hc2]].
  rewrite Hc1 in Hy. rewrite Hc2 in Hx. injection Hx as <-. injection Hy as <-.
  unfold closed_by, created_by. apply inj_le, filter_length_le.
  intros issue Hin Hboth. apply andb_true_iff in Hboth as [Hc Hu].
  apply Z.leb_le in Hu. apply Z.leb_le. specialize (Hdates issue Hin Hc). lia.
Qed.

End RunningTotals.

(* ================================================================== *)
(** ** More on rankings *)

Lemma firstn_StronglySorted (A : Type) (R : A -> A -> Prop) (n : nat)
  (l : list A) :
  StronglySorted R l -> StronglySorted R (firstn n l).
Proof.
  intros Hs. revert n. induction Hs as [|x l Hs IH Hall]; intros n.
  - rewrite firstn_nil. constructor.
  - destruct n as [|n]; cbn [firstn]; constructor; [apply IH|].
    apply Forall_forall. intros y Hy.
    rewrite Forall_forall in Hall. apply Hall.
    rewrite <- (firstn_skipn n l). apply in_app_iff. now left.
Qed.

Lemma slice_to_firstn (A : Type) (n : Z) (l : list A) :
  exists m, slice_to n l = firstn m l.
Proof. unfold slice_to. destruct (0 <=? n); eexists; reflexivity. Qed.

Lemma firstn_incl (A : Type) (n : nat) (l : list A) (x : A) :
  In x (firstn n l) -> In x l.
Proof.
  intros H. rewrite <- (firstn_skipn n l). apply in_app_iff. now left.
Qed.

Lemma firstn_NoDup (A : Type) (n : nat) (l : list A) :
  NoDup l -> NoDup (firstn n l).
Proof.
  intros H. rewrite <- (firstn_skipn n l) in H. now apply NoDup_app_remove_r in H.
Qed.

Lemma get_of_In (V : Type) (k : string) (v : V) (d : Dict.t V) :
  NoDup (Dict.keys d) -> In (k, v) d -> Dict.get k d = Some v.
Proof.
  induction d as [|[k' v'] d IH]; cbn; intros Hnd Hin; [contradiction|].
  inversion Hnd as [|? ? Hfresh Hnd']; subst.
  destruct Hin as [Heq|Hin].
  - injection Heq as -> ->. now rewrite String.eqb_refl.
  - destruct (String.eqb_spec k k') as [->|_]; [|now apply IH].
    exfalso. apply Hfresh. change k' with (fst (k', v)). now apply in_map.
Qed.

Lemma In_of_get (V : Type) (k : string) (v : V) (d : Dict.t V) :
  Dict.get k d = Some v -> In (k, v) d.
Proof.
  induction d as [|[k' v'] d IH]; cbn; intros H; [discriminate|].
  destruct (String.eqb_spec k k') as [->|_].
  - injection H as ->. now left.
  - right. now apply IH.
Qed.

Lemma set_positive (k : string) (v : Z) (d : Dict.t Z) :
  1 <= v ->
  (forall u c, In (u, c) d -> 1 <= c) ->
  forall u c, In (u, c) (Dict.set k v d) -> 1 <= c.
Proof.
  intros Hv. induction d as [|[k' v'] d IH]; cbn; intros Hpos u c.
  - intros [H|[]]. injection H as <- <-. exact Hv.
  - destruct (String.eqb k k').
    + intros [H|H]; [injection H as <- <-; exact Hv | apply (Hpos u c); now right].
    + intros [H|H]; [apply (Hpos u c); now left|].
      apply (IH (fun u' c' H' => Hpos u' c' (or_intror H')) u c H).
Qed.

Section TalliesAndRankings.
Variable who : Issue -> member User.

Lemma tally_count (u : string) (issues : list Issue) (counts : Dict.t Z) :
  count_of u (tally who issues counts)
  = count_of u counts + tasks_of who u issues.
Proof.
  unfold tally, tasks_of. revert counts.
  induction issues as [|i issues IH]; intros counts; [cbn; lia|].
  cbn [fold_left filter]. rewrite IH.
  destruct (counted_name (who i)) as [n|]; [|reflexivity].
  rewrite count_of_increment. destruct (String.eqb n u); cbn [List.length]; lia.
Qed.

Lemma tally_NoDup (issues : list Issue) (counts : Dict.t Z) :
  NoDup (Dict.keys counts) -> NoDup (Dict.keys (tally who issues counts)).
Proof.
  unfold tally. revert counts.
  induction issues as [|i issues IH]; intros counts Hnd; [exact Hnd|].
  cbn [fold_left]. apply IH.
  destruct (counted_name (who i)); [now apply NoDup_keys_set | exact Hnd].
Qed.

(** Every count of a dictionary built from nothing is at least 1. *)
Lemma tally_positive (issues : list Issue) (counts : Dict.t Z) :
  (forall u c, In (u, c) counts -> 1 <= c) ->
  forall u c, In (u, c) (tally who issues counts) -> 1 <= c.
Proof.
  unfold tally. revert counts.
  induction issues as [|i issues IH]; intros counts Hpos; [exact Hpos|].
  cbn [fold_left]. apply IH.
  destruct (counted_name (who i)) as [n|]; [|exact Hpos].
  unfold increment. apply set_positive; [|exact Hpos].
  unfold count_of. destruct (Dict.get n counts) as [c0|] eqn:E; [|lia].
  apply In_of_get in E. specialize (Hpos _ _ E). lia.
Qed.

Lemma tally_length (issues : list Issue) (counts : Dict.t Z) :
  (List.length (tally who issues counts)
   <= List.length counts + List.length issues)%nat.
Proof.
  unfold tally. revert counts.
  induction issues as [|i issues IH]; intros counts; [cbn; lia|].
  cbn [fold_left List.length]. etransitivity; [apply IH|].
  destruct (counted_name (who i)) as [n|]; [|lia].
  assert (Hlen : (List.length (increment n counts) <= S (List.length counts))%nat).
  { unfold increment. generalize (count_of n counts + 1). intros c.
    induction counts as [|[k v] counts IHc]; cbn; [lia|].
    destruct (String.eqb n k); cbn; lia. }
  lia.
Qed.

Lemma top_ranked (n : Z) (counts : Dict.t Z) : ranked_by_count (top n counts).
Proof.
  unfold ranked_by_count, top.
  destruct (slice_to_firstn n (stable_sort (fun y x => snd x <? snd y) counts))
    as [m ->].
  apply firstn_StronglySorted, Sorted_StronglySorted.
  - intros a b c. lia.
  - apply stable_sort_Sorted.
    + intros y x H. apply Z.ltb_lt in H. lia.
    + intros y x H. apply Z.ltb_ge in H. exact H.
Qed.

Lemma top_entries (n : Z) (issues : list Issue) :
  entries_are_task_counts who issues (top n (tally who issues (Dict.empty Z))).
Proof.
  unfold entries_are_task_counts, top.
  destruct (slice_to_firstn n
              (stable_sort (fun y x => snd x <? snd y)
                 (tally who issues (Dict.empty Z)))) as [m ->].
  assert (Hnd : NoDup (Dict.keys (tally who issues (Dict.empty Z))))
    by (apply tally_NoDup; constructor).
  split.
  - rewrite <- firstn_map. apply firstn_NoDup.
    apply Permutation_NoDup with (Dict.keys (tally who issues (Dict.empty Z)));
      [|exact Hnd].
    apply Permutation_map, Permutation_sym, stable_sort_Permutation.
  - intros u c Hin. apply firstn_incl, stable_sort_In in Hin. split.
    + pose proof (tally_count u issues (Dict.empty Z)) as Hc.
      unfold count_of at 1 in Hc. rewrite (@get_of_In _ _ _ _ Hnd Hin) in Hc.
      cbn in Hc. exact Hc.
    + eapply tally_positive; [|exact Hin]. intros u' c' [].
Qed.

Lemma top_complete (n : Z) (issues : list Issue) :
  Z.of_nat (List.length issues) <= n ->
  every_user_ranked who issues (top n (tally who issues (Dict.empty Z))).
Proof.
  intros Hn u Hu. unfold top, slice_to.
  replace (0 <=? n) with true by (symmetry; apply Z.leb_le; lia).
  rewrite firstn_all2.
  2:{ rewrite (Permutation_length (stable_sort_Permutation _ _)).
      pose proof (tally_length issues (Dict.empty Z)) as H. cbn in H. lia. }
  apply stable_sort_In, In_of_get.
  pose proof (tally_count u issues (Dict.empty Z)) as Hc.
  unfold count_of in Hc. cbn [Dict.get Dict.empty] in Hc.
  destruct (Dict.get u (tally who issues (Dict.empty Z))) as [c|]; [|lia].
  f_equal. lia.
Qed.

End TalliesAndRankings.

(** X17.  Both rankings are in the order of their counts, the greatest first,
    whatever [top_n] is. *)
Theorem rankings_ordered_by_count (issues : list Issue) (top_n : Z) :
  ranked_by_count (fst (generate_user_task_distribution issues top_n))
  /\ ranked_by_count (snd (generate_user_task_distribution issues top_n)).
Proof.
  unfold generate_user_task_distribution. rewrite count_users_split.
  cbn [fst snd]. split; apply top_ranked.
Qed.

(** X18.  In both rankings no user stands twice, and the count beside a user
    is the number of issues that name this user as assignee, or as reporter,
    which is at least 1: an issue without assignee, or with an assignee
    without ['displayName'], is counted for nobody. *)
Theorem ranking_entries_are_task_counts (issues : list Issue) (top_n : Z) :
  entries_are_task_counts assignee issues
    (fst (generate_user_task_distribution issues top_n))
  /\ entries_are_task_counts reporter issues
       (snd (generate_user_task_distribution issues top_n)).
Proof.
  unfold generate_user_task_distribution. rewrite count_users_split.
  cbn [fst snd]. split; apply top_entries.
Qed.

(** X19.  When [top_n] is at least the number of issues, every user named by
    an issue is in the ranking, with the number of its issues. *)
Theorem ranking_complete_for_large_top_n (issues : list Issue) (top_n : Z) :
  Z.of_nat (List.length issues) <= top_n ->
  every_user_ranked assignee issues
    (fst (generate_user_task_distribution issues top_n))
  /\ every_user_ranked reporter issues
       (snd (generate_user_task_distribution issues top_n)).
Proof.
  intros Hn. unfold generate_user_task_distribution. rewrite count_users_split.
  cbn [fst snd]. split; now apply top_complete.
Qed.

Lemma ranking_complete_for_large_top_n_witness :
  In ("bob", 2) (fst (generate_user_task_distribution board 30))
  /\ In ("ann", 2) (snd (generate_user_task_distribution board 30)).
Proof.
  destruct (ranking_complete_for_large_top_n board (top_n := 30)) as [Ha Hr].
  - vm_compute. discriminate.
  - split.
    + apply (Ha "bob"). vm_compute. discriminate.
    + apply (Hr "ann"). vm_compute. discriminate.
Defined.

(* ================================================================== *)
(** ** Logged time *)

Lemma hours_exact (seconds : Z) :
  f_div (F := Qc) (f_of_int seconds) (f_of_int 3600) = hours seconds.
Proof.
  unfold hours. cbn [f_div f_of_int PyFloat_Qc].
  apply Qc_is_canon. unfold Qcdiv, Qcmult, Qcinv. cbn [this Q2Qc].
  rewrite !Qred_correct. unfold Qeq, Qmult, Qinv, inject_Z. cbn. lia.
Qed.

Lemma value_of_set (k k' : string) (v : Qc) (d : Dict.t Qc) :
  value_of k (Dict.set k' v d) = if String.eqb k' k then v else value_of k d.
Proof.
  unfold value_of. destruct (String.eqb_spec k' k) as [->|Hne].
  - now rewrite get_set_same.
  - rewrite get_set_other by congruence. reflexivity.
Qed.

Lemma log_times_total (issues : list TimedIssue) (d : Dict.t Qc) :
  Forall (fun issue => timetracking issue <> Null) issues ->
  exists result,
    log_times issues d = inl result
    /\ forall u, value_of u result = (value_of u d + logged_hours u issues)%Qc.
Proof.
  intros Hok. revert d. induction Hok as [|i issues Hi _ IH]; intros d.
  - exists d. split; [reflexivity|]. intros u. cbn. ring.
  - cbn [log_times logged_hours]. unfold log_time.
    destruct (timetracking i) as [| |t]; [| congruence |].
    + destruct (IH d) as [result [Hret Hv]]. exists result.
      split; [exact Hret|]. intros u. rewrite Hv. ring.
    + destruct (timeSpentSeconds t) as [seconds|].
      * destruct (counted_name (assignee (fields_of i))) as [n|].
        -- destruct (IH (Dict.set n
                           (f_add (match Dict.get n d with
                                   | Some v => v
                                   | None => f_zero
                                   end)
                                  (f_div (f_of_int seconds) (f_of_int 3600))) d))
             as [result [Hret Hv]].
           exists result. split; [exact Hret|]. intros u.
           rewrite Hv, value_of_set, hours_exact.
           destruct (String.eqb_spec n u) as [->|_]; [|ring].
           unfold value_of. cbn [f_add f_zero PyFloat_Qc].
           destruct (Dict.get u d); ring.
        -- destruct (IH d) as [result [Hret Hv]]. exists result.
           split; [exact Hret|]. intros u. rewrite Hv.
           destruct (timetracking i); ring.
      * destruct (IH d) as [result [Hret Hv]]. exists result.
        split; [exact Hret|]. intros u. rewrite Hv.
        destruct (counted_name (assignee (fields_of i))); ring.
Qed.

(** X20.  When no issue has a null time tracking, the logged-time report
    holds for every user the hours logged on the issues assigned to this user,
    in exact arithmetic; the time logged on an issue without a named assignee
    is counted for nobody. *)
Theorem logged_time_per_assignee (issues : list TimedIssue) :
  Forall (fun issue => timetracking issue <> Null) issues ->
  exists result,
    generate_logged_time_histogram (F := Qc) issues = inl result
    /\ forall u, value_of u result = logged_hours u issues.
Proof.
  intros Hok. unfold generate_logged_time_histogram.
  destruct (log_times_total (Dict.empty Qc) Hok) as [result [Hret Hv]].
  exists result. split; [exact Hret|]. intros u. rewrite Hv.
  change (value_of u (Dict.empty Qc)) with (Q2Qc 0). ring.
Qed.

(** X21.  An issue whose time tracking is present and null ends the
    logged-time report in [TypeError], whatever the issues before it logged;
    this holds for any arithmetic. *)
Theorem null_timetracking_raises (F : Type) (PF : PyFloat F)
  (before_it after_it : list TimedIssue) (issue : TimedIssue) :
  Forall (fun i => timetracking i <> Null) before_it ->
  timetracking issue = Null ->
  generate_logged_time_histogram (F := F) (before_it ++ issue :: after_it)
  = inr TypeError.
Proof.
  intros Hok Hnull. unfold generate_logged_time_histogram.
  generalize (Dict.empty F) as d.
  induction Hok as [|i issues Hi _ IH]; intros d; cbn [app log_times].
  - unfold log_time. now rewrite Hnull.
  - destruct (log_time d i) as [d'|[]] eqn:E; [apply IH|].
    unfold log_time in E. destruct (timetracking i) as [| |t]; [discriminate| congruence |].
    destruct (timeSpentSeconds t); [|discriminate].
    destruct (counted_name (assignee (fields_of i))); discriminate.
Qed.

Lemma logged_time_per_assignee_witness :
  exists result,
    generate_logged_time_histogram (F := Qc) Cases.timesheet = inl result
    /\ value_of "ann" result = Q2Qc 2 /\ value_of "bob" result = Q2Qc 0.
Proof.
  destruct (logged_time_per_assignee (issues := Cases.timesheet))
    as [result [Hret Hv]].
  - repeat constructor; discriminate.
  - exists result. split; [exact Hret|].
    split; rewrite Hv; apply Qc_is_canon; vm_compute; reflexivity.
Defined.

Lemma null_timetracking_raises_witness :
  generate_logged_time_histogram (F := float)
    (Cases.timesheet ++ Cases.untracked :: [])
  = inr TypeError.
Proof.
  apply null_timetracking_raises.
  - repeat constructor; discriminate.
  - reflexivity.
Defined.

(** In binary64 the two issues of "ann" add up to 2.0 hours. *)
Example logged_time_float :
  generate_logged_time_histogram (F := float) Cases.timesheet
  = inl [ ("ann", 2%float) ].
Proof. vm_compute. reflexivity. Qed.

(* ================================================================== *)
(** ** More on priorities *)

Lemma sum_counts_set_new (k : string) (v : Z) (d : Dict.t Z) :
  Dict.get k d = None -> sum_counts (Dict.set k v d) = sum_counts d + v.
Proof.
  unfold sum_counts, Dict.values.
  induction d as [|[k' v'] d IH]; cbn; intros H; [lia|].
  destruct (String.eqb k k'); [discriminate|]. cbn. rewrite IH by exact H. lia.
Qed.

Lemma sum_counts_set_old (k : string) (v v0 : Z) (d : Dict.t Z) :
  Dict.get k d = Some v0 -> sum_counts (Dict.set k v d) = sum_counts d - v0 + v.
Proof.
  unfold sum_counts, Dict.values.
  induction d as [|[k' v'] d IH]; cbn; intros H; [discriminate|].
  destruct (String.eqb k k'); cbn.
  - injection H as ->. lia.
  - rewrite IH by exact H. lia.
Qed.

Lemma sum_counts_increment (k : string) (d : Dict.t Z) :
  sum_counts (increment k d) = sum_counts d + 1.
Proof.
  unfold increment, count_of. destruct (Dict.get k d) as [v|] eqn:E.
  - rewrite sum_counts_set_old with (v0 := v) by exact E. lia.
  - rewrite sum_counts_set_new by exact E. lia.
Qed.

Lemma count_priorities_sum (issues : list Issue) (counts result : Dict.t Z) :
  count_priorities issues counts = Returned result ->
  sum_counts result = sum_counts counts + Z.of_nat (List.length issues).
Proof.
  revert counts. induction issues as [|i issues IH]; intros counts; cbn.
  - intros H. injection H as <-. lia.
  - destruct (priority_label i) as [l|e]; [|discriminate].
    intros H. rewrite (IH _ H), sum_counts_increment. lia.
Qed.

(** X22.  When no issue has a null priority, the priority report counts every
    issue once: the count under a label is the number of issues with that
    label, "Unknown" standing for an absent priority and for a priority
    without name, and the counts add up to the number of issues. *)
Theorem priority_counts_every_issue_once (issues : list Issue) :
  Forall (fun i => priority i <> Null) issues ->
  exists counts,
    generate_priority_distribution issues = Returned counts
    /\ (forall label,
          count_of label counts
          = Z.of_nat (List.length (filter (labelled label) issues)))
    /\ sum_counts counts = Z.of_nat (List.length issues).
Proof.
  intros Hok. unfold generate_priority_distribution.
  destruct (count_priorities_fine (Dict.empty Z) Hok) as [counts [Hret Hc]].
  exists counts. split; [exact Hret|]. split.
  - intros label. rewrite Hc. cbn. lia.
  - rewrite (count_priorities_sum _ _ Hret). cbn. lia.
Qed.

Lemma priority_counts_every_issue_once_witness :
  exists counts,
    generate_priority_distribution board = Returned counts
    /\ count_of "Unknown" counts = 4 /\ count_of "Major" counts = 1
    /\ sum_counts counts = 5.
Proof.
  destruct (priority_counts_every_issue_once (issues := board))
    as [counts [Hret [Hc Hsum]]].
  - repeat constructor; discriminate.
  - exists counts. split; [exact Hret|].
    split; [rewrite Hc; reflexivity|]. split; [rewrite Hc; reflexivity|].
    exact Hsum.
Defined.

(* ================================================================== *)
(** ** Fetching the issues page by page *)

Lemma rounds_none (total max_results : Z) :
  0 < max_results -> total <= 0 -> rounds total max_results = O.
Proof.
  intros Hm Ht. unfold rounds.
  assert ((total + max_results - 1) / max_results < 1)
    by (apply Z.div_lt_upper_bound; lia).
  lia.
Qed.

Lemma rounds_more (total max_results : Z) :
  0 < max_results -> 0 < total ->
  rounds total max_results = S (rounds (total - max_results) max_results).
Proof.
  intros Hm Ht. unfold rounds.
  replace (total + max_results - 1) with (total - 1 + 1 * max_results) by lia.
  rewrite Z.div_add by lia.
  replace (total - max_results + max_results - 1) with (total - 1) by lia.
  assert (0 <= (total - 1) / max_results) by (apply Z.div_pos; lia).
  lia.
Qed.

Section Pagination.
Variable search : string -> Z -> option Z -> SearchResponse.

Lemma pages_more (jql : string) (max_results start : Z) (n : nat) :
  pages search jql max_results start (S n)
  = (issues_of (search jql max_results (Some start))
     ++ pages search jql max_results (start + max_results) n)%list.
Proof.
  unfold pages. cbn [seq flat_map].
  replace (start + Z.of_nat 0 * max_results) with start by lia.
  f_equal. rewrite <- seq_shift, flat_map_concat_map, map_map,
    <- flat_map_concat_map.
  apply flat_map_ext. intros i. do 3 f_equal. lia.
Qed.

Lemma fetch_pages_ends (jql : string) (max_results total : Z) :
  0 < max_results ->
  forall (n : nat) (start : Z) (all : list Issue) (fuel : nat),
    n = rounds (total - start) max_results ->
    (n < fuel)%nat ->
    fetch_pages search fuel jql max_results total start all
    = Some (all ++ pages search jql max_results start n)%list.
Proof.
  intros Hm. induction n as [|n IH]; intros start all fuel Hn Hfuel;
    (destruct fuel as [|fuel]; [lia|]); cbn [fetch_pages];
    destruct (Z.ltb_spec start total) as [Hlt|Hge].
  - rewrite rounds_more in Hn by lia. discriminate.
  - unfold pages. cbn. now rewrite app_nil_r.
  - rewrite rounds_more in Hn by lia. injection Hn as Hn.
    rewrite (IH (start + max_results)); [|rewrite Hn; f_equal; lia | lia].
    rewrite pages_more, <- app_assoc. reflexivity.
  - rewrite rounds_none in Hn by lia. discriminate.
Qed.

Lemma fetch_pages_never_ends (jql : string) (max_results total : Z) :
  max_results <= 0 ->
  forall (fuel : nat) (start : Z) (all : list Issue),
    start < total ->
    fetch_pages search fuel jql max_results total start all = None.
Proof.
  intros Hm. induction fuel as [|fuel IH]; intros start all Hlt; [reflexivity|].
  cbn [fetch_pages]. destruct (Z.ltb_spec start total); [|lia].
  apply IH. lia.
Qed.

(** X23.  With a positive page size the loop of [get_issues_by_project] ends
    after as many page requests as it takes to cover the announced total, at
    the places 0, [max_results], 2 * [max_results], ..., and returns what these
    pages hold, joined in this order; a total that is 0, negative or missing
    costs no page request.  Whatever a page holds is taken as it is: the
    announced total only decides how many pages are asked for. *)
Theorem pagination_asks_enough_pages (project_key : string) (max_results : Z)
  (fuel : nat) :
  0 < max_results ->
  (rounds (total_of (search (jql_of project_key) 0 None)) max_results < fuel)%nat ->
  get_issues_by_project search fuel project_key max_results
  = Some (pages search (jql_of project_key) max_results 0
            (rounds (total_of (search (jql_of project_key) 0 None)) max_results)).
Proof.
  intros Hm Hfuel. unfold get_issues_by_project. cbv zeta.
  fold (total_of (search (jql_of project_key) 0 None)).
  erewrite fetch_pages_ends; [reflexivity | exact Hm | f_equal; lia | exact Hfuel].
Qed.

(** X24.  With a page size that is 0 or negative and a positive total the
    loop never ends: the place asked for never moves forward. *)
Theorem pagination_never_ends (project_key : string) (max_results : Z)
  (fuel : nat) :
  max_results <= 0 ->
  0 < total_of (search (jql_of project_key) 0 None) ->
  get_issues_by_project search fuel project_key max_results = None.
Proof.
  intros Hm Ht. unfold get_issues_by_project. cbv zeta.
  fold (total_of (search (jql_of project_key) 0 None)).
  now apply fetch_pages_never_ends.
Qed.

End Pagination.

Lemma chunks_join (A : Type) (m : nat) (n : nat) (l : list A) :
  (List.length l <= n * m)%nat ->
  flat_map (fun i => firstn m (skipn (i * m) l)) (seq 0 n) = l.
Proof.
  revert l. induction n as [|n IH]; intros l Hlen.
  - destruct l; [reflexivity | cbn in Hlen; lia].
  - cbn [seq flat_map]. rewrite <- seq_shift, flat_map_concat_map, map_map,
      <- flat_map_concat_map.
    rewrite (flat_map_ext _ (fun i => firstn m (skipn (i * m) (skipn m l)))).
    2:{ intros i. rewrite skipn_skipn. do 2 f_equal. lia. }
    rewrite IH by (rewrite length_skipn; lia).
    cbn [Nat.mul skipn]. apply firstn_skipn.
Qed.

(** X25.  Against a tracker that holds the issues [all], announces their
    number and answers every page request in full, [get_issues_by_project]
    returns all the issues, each once and in the tracker's order. *)
Theorem pagination_returns_every_issue (all : list Issue) (cap : Z)
  (project_key : string) (max_results : Z) (fuel : nat) :
  0 < max_results ->
  max_results <= cap ->
  (List.length all < fuel)%nat ->
  get_issues_by_project (tracker all cap) fuel project_key max_results = Some all.
Proof.
  intros Hm Hcap Hfuel. unfold get_issues_by_project. cbv zeta.
  cbn [tracker response_total].
  set (total := Z.of_nat (List.length all)).
  assert (Hrounds : (rounds total max_results <= List.length all)%nat).
  { unfold rounds. destruct (Z.eq_dec total 0) as [H0|H0].
    - rewrite H0. assert ((0 + max_results - 1) / max_results < 1)
        by (apply Z.div_lt_upper_bound; lia). lia.
    - assert ((total + max_results - 1) / max_results <= total).
      { apply Z.div_le_upper_bound; [lia|]. unfold total in *. nia. }
      unfold total in *. lia. }
  assert (Hcover : total <= Z.of_nat (rounds total max_results) * max_results).
  { unfold rounds.
    pose proof (Z.div_mod (total + max_results - 1) max_results ltac:(lia)) as Hdm.
    pose proof (Z.mod_pos_bound (total + max_results - 1) max_results Hm) as Hmod.
    assert (0 <= (total + max_results - 1) / max_results)
      by (apply Z.div_pos; unfold total; lia).
    rewrite Z2Nat.id by assumption. nia. }
  erewrite fetch_pages_ends;
    [| exact Hm | f_equal; rewrite Z.sub_0_r; reflexivity | lia].
  cbn [app]. f_equal. unfold pages, issues_of, tracker. cbn [response_issues].
  rewrite Z.min_l by exact Hcap.
  rewrite (flat_map_ext _ (fun i => firstn (Z.to_nat max_results)
                                      (skipn (i * Z.to_nat max_results) all))).
  2:{ intros i. do 2 f_equal. rewrite Z.add_0_l, Z2Nat.inj_mul by lia.
      now rewrite Nat2Z.id. }
  apply chunks_join. lia.
Qed.

Lemma pagination_asks_enough_pages_witness :
  get_issues_by_project (tracker board 2) 10 "DEMO" 3
  = Some (pages (tracker board 2) (jql_of "DEMO") 3 0 2).
Proof.
  apply (pagination_asks_enough_pages (tracker board 2) "DEMO" (max_results := 3)
           (fuel := 10)).
  - lia.
  - vm_compute. lia.
Defined.

(** A tracker that gives two issues to a page when three are asked for: the
    third issue is never seen. *)
Example capped_pages_skip_issues :
  option_map (map key) (get_issues_by_project (tracker board 2) 10 "DEMO" 3)
  = Some [ "T-1"; "T-2"; "T-4"; "T-5" ].
Proof. reflexivity. Qed.

Lemma pagination_never_ends_witness :
  get_issues_by_project (tracker board 10) 1000 "DEMO" 0 = None.
Proof.
  apply pagination_never_ends.
  - lia.
  - vm_compute. reflexivity.
Defined.

Lemma pagination_returns_every_issue_witness :
  get_issues_by_project (tracker board 1000) 6 "DEMO" 2 = Some board.
Proof.
  apply pagination_returns_every_issue.
  - lia.
  - lia.
  - cbn. lia.
Defined.

(* ================================================================== *)
(** ** The base address *)

Lemma rstrip_slash_split (s : string) :
  exists n, s = rstrip_slash s ++ slashes n
            /\ (rstrip_slash s = "" -> s = slashes n).
Proof.
  induction s as [|c s [n [Hs Hempty]]].
  - exists O. split; reflexivity.
  - cbn [rstrip_slash]. destruct (String.eqb_spec (rstrip_slash s) "") as [He|Hne].
    + destruct (Ascii.eqb_spec c "/") as [->|Hc]; cbn [andb].
      * exists (S n). cbn. rewrite <- (Hempty He). split; [reflexivity | intros _; reflexivity].
      * exists n. rewrite He. cbn. rewrite <- (Hempty He).
        split; [reflexivity | discriminate].
    + cbn [andb]. exists n. cbn. rewrite <- Hs. split; [reflexivity | discriminate].
Qed.

Lemma rstrip_slash_no_trailing (s p : string) : rstrip_slash s <> p ++ "/".
Proof.
  revert p. induction s as [|c s IH]; intros p; cbn [rstrip_slash].
  - destruct p; discriminate.
  - destruct (String.eqb_spec (rstrip_slash s) "") as [He|Hne].
    + destruct (Ascii.eqb_spec c "/") as [->|Hc]; cbn [andb].
      * destruct p; discriminate.
      * rewrite He. destruct p as [|c' p]; cbn.
        -- intros H. injection H as ->. congruence.
        -- intros H. injection H as _ H. destruct p; discriminate.
    + cbn [andb]. destruct p as [|c' p]; cbn.
      * intros H. injection H as _ H. congruence.
      * intros H. injection H as _ H. now apply IH in H.
Qed.

(** X26.  The base address a client keeps is the one given less the slashes
    at its end, all of them and nothing more: it never ends in a slash, so an
    endpoint that starts with one is joined by exactly that one.  This holds
    for the client [main] builds from any environment. *)
Theorem base_address_has_no_trailing_slash (url username api_token : string) :
  (exists n, url = jira_url (init url username api_token) ++ slashes n)
  /\ (forall p, jira_url (init url username api_token) <> p ++ "/")
  /\ (forall env p, jira_url (fst (main_setup env)) <> p ++ "/").
Proof.
  cbn [init jira_url]. split; [|split].
  - destruct (rstrip_slash_split url) as [n [Hn _]]. now exists n.
  - apply rstrip_slash_no_trailing.
  - intros env p. unfold main_setup. cbv zeta. cbn [fst].
    destruct (String.eqb (getenv env "JIRA_API_TOKEN" "") "");
      apply rstrip_slash_no_trailing.
Qed.

Example address_of_search :
  request_url (init "https://issues.apache.org/jira//" "" "") "/rest/api/2/search"
  = "https://issues.apache.org/jira/rest/api/2/search".
Proof. reflexivity. Qed.

(* ================================================================== *)
(** ** The running totals, run *)

Lemma cumulative_series_count_up_to_day_witness :
  exists r,
    generate_daily_task_trend Iso8601.parse [X; Y] = Some r
    /\ nth_error (cumulative_created r) 9 = Some 2
    /\ nth_error (cumulative_closed r) 8 = Some 0
    /\ nth_error (cumulative_closed r) 9 = Some 1.
Proof.
  destruct (cumulative_series_count_up_to_day Iso8601.parse (issues := [X; Y]))
    as [r [Hret Hcum]].
  - discriminate.
  - exists r. split; [exact Hret|].
    assert (Hrange : date_range r
                     = [19723; 19724; 19725; 19726; 19727; 19728; 19729; 19730;
                        19731; 19732]).
    { vm_compute in Hret. now injection Hret as <-. }
    assert (H8 : nth_error (date_range r) 8 = Some 19731) by now rewrite Hrange.
    assert (H9 : nth_error (date_range r) 9 = Some 19732) by now rewrite Hrange.
    destruct (Hcum _ _ H8) as [_ Hc8]. destruct (Hcum _ _ H9) as [Hk9 Hc9].
    repeat split; assumption.
Defined.

Lemma cumulative_series_end_at_totals_witness :
  exists r,
    generate_daily_task_trend Iso8601.parse [X; Y] = Some r
    /\ last (cumulative_created r) 0 = 2
    /\ last (cumulative_closed r) 0 = 1.
Proof.
  apply (cumulative_series_end_at_totals Iso8601.parse (issues := [X; Y])).
  discriminate.
Defined.

Lemma closed_never_ahead_of_created_witness :
  exists r,
    generate_daily_task_trend Iso8601.parse [X; Y] = Some r
    /\ forall i x y, nth_error (cumulative_closed r) i = Some x ->
         nth_error (cumulative_created r) i = Some y -> x <= y.
Proof.
  apply (closed_never_ahead_of_created Iso8601.parse (issues := [X; Y])).
  - discriminate.
  - intros issue [<-|[<-|[]]] _; vm_compute; discriminate.
Defined.

(* ================================================================== *)
(** ** The two measures of a closed issue *)

(** X27.  For an issue in a closed state whose changelog ends in a closed
    state and whose transitions all have a [from_status] that is neither null
    nor empty, the times in status add up to the open duration: the two
    reports measure the same span.  In exact arithmetic. *)
Theorem time_in_status_adds_up_to_open_duration
  (changelog : string -> list History) (parse : string -> datetime)
  (issue : Issue) (trs : list Transition) (s : string) :
  get_issue_transitions changelog (key issue) = trs ->
  trs <> [] ->
  names_closed_state (status_name issue) = true ->
  status_after issue trs = Some s ->
  names_closed_state s = true ->
  Forall (fun t => truthy (from_status t) = true) trs ->
  exists m d,
    calculate_time_in_status (F := Qc) changelog parse issue = Returned m
    /\ calculate_open_duration (F := Qc) parse issue = Some d
    /\ sum_values m = d.
Proof.
  intros Htrs Hne Hissue Hstatus Hclosed Hall.
  rewrite calculate_time_in_status_unfold, calculate_open_duration_eq, Htrs, Hissue.
  cbv zeta. destruct trs as [|tr rest]; [congruence|].
  rewrite Hstatus, Hclosed. eexists. eexists.
  split; [reflexivity|]. split; [reflexivity|].
  rewrite sum_values_accumulate, loop_sum.
  cbn [time_in_status status_start_time]. unfold time_after.
  rewrite (dropped_nothing parse _ Hall).
  rewrite <- (in_days_chain (parse (created issue))
                (last (map (time_of parse) (tr :: rest)) (parse (created issue)))
                (parse (updated issue))).
  change (sum_values (Dict.empty Qc)) with (Q2Qc 0). ring.
Qed.

Lemma time_in_status_adds_up_to_open_duration_witness :
  exists m d,
    calculate_time_in_status (F := Qc) log_X Iso8601.parse X = Returned m
    /\ calculate_open_duration (F := Qc) Iso8601.parse X = Some d
    /\ sum_values m = d.
Proof.
  apply (time_in_status_adds_up_to_open_duration log_X Iso8601.parse X
           (trs := get_issue_transitions log_X (key X)) (s := "Done")).
  - reflexivity.
  - vm_compute. discriminate.
  - reflexivity.
  - reflexivity.
  - reflexivity.
  - vm_compute. repeat constructor.
Defined.

(* ================================================================== *)
(** ** Names of closed states *)

Lemma string_app_assoc (a b c : string) : (a ++ b) ++ c = a ++ b ++ c.
Proof. induction a as [|x a IH]; cbn; [reflexivity | now rewrite IH]. Qed.

Lemma lower_app (a b : string) : lower (a ++ b) = lower a ++ lower b.
Proof. induction a as [|c a IH]; cbn; [reflexivity | now rewrite IH]. Qed.

Lemma lower_ascii_idempotent (c : ascii) : lower_ascii (lower_ascii c) = lower_ascii c.
Proof.
  destruct c as [[] [] [] [] [] [] [] []]; reflexivity.
Qed.

Lemma lower_idempotent (s : string) : lower (lower s) = lower s.
Proof.
  induction s as [|c s IH]; cbn; [reflexivity|].
  now rewrite lower_ascii_idempotent, IH.
Qed.

(** X28.  The test for a closed state looks for the three words anywhere in
    the name and in any letter case: a name that has a closed name inside it
    is closed too, so "Unresolved" or "Not done" count as closed, and the
    letter case of a name never matters. *)
Theorem closed_state_names_extend (s a b : string) :
  (names_closed_state s = true -> names_closed_state (a ++ s ++ b) = true)
  /\ names_closed_state (lower s) = names_closed_state s.
Proof.
  split.
  - rewrite !names_closed_state_iff.
    intros [kw [x [y [Hkw Hs]]]]. exists kw, (lower a ++ x), (y ++ lower b).
    split; [exact Hkw|].
    rewrite !lower_app, Hs. now rewrite !string_app_assoc.
  - unfold names_closed_state. cbv zeta. now rewrite lower_idempotent.
Qed.

Example unresolved_is_closed :
  names_closed_state "Unresolved" = true /\ names_closed_state "NOT DONE" = true
  /\ names_closed_state "Open" = false.
Proof. repeat split; reflexivity. Qed.

(** A null [to_status] before the last transition does not raise; as the last
    one it does. *)
Example null_to_status_in_the_middle :
  let early := {| history_created := "2024-01-02T00:00:00Z";
                  history_items :=
                    [ {| item_field := Some "status"; fromString := Some "New";
                         toString := None |} ] |} in
  calculate_time_in_status (F := float)
    (fun k => early :: log_X k) Iso8601.parse X
  = Returned [ ("New", 1%float); ("Open", 1%float); ("In Progress", 7%float);
               ("Done", 0%float) ]
  /\ calculate_time_in_status (F := float) Cases.log_open_end Iso8601.parse X
     = Raised AttributeError.
Proof. split; vm_compute; reflexivity. Qed.

(* ================================================================== *)
(** ** The open duration, in full *)

Lemma lower_ascii_same_letter (c d : ascii) :
  is_capital d = false ->
  (lower_ascii c = d <-> same_letter c d = true).
Proof.
  intros Hd. unfold lower_ascii, same_letter. fold (is_capital c).
  rewrite Hd, andb_false_l, orb_false_r. split.
  - intros <-. destruct (is_capital c) eqn:Hc.
    + apply orb_true_iff. right. rewrite andb_true_l.
      apply Nat.eqb_eq. apply nat_ascii_embedding.
      unfold is_capital in Hc. apply andb_true_iff in Hc as [_ Hc].
      apply Nat.leb_le in Hc. lia.
    + now rewrite Ascii.eqb_refl.
  - intros H. apply orb_true_iff in H as [H|H].
    + apply Ascii.eqb_eq in H. subst d. now rewrite Hd.
    + apply andb_true_iff in H as [Hc H]. rewrite Hc.
      apply Nat.eqb_eq in H. rewrite <- H. apply ascii_nat_embedding.
Qed.

Lemma lower_same_word (w kw : string) :
  no_capital kw = true -> (lower w = kw <-> same_word w kw = true).
Proof.
  revert kw. induction w as [|c w IH]; intros [|d kw] Hkw; cbn.
  - tauto.
  - split; discriminate.
  - split; discriminate.
  - cbn in Hkw. apply andb_true_iff in Hkw as [Hd Hkw].
    apply negb_true_iff in Hd.
    rewrite andb_true_iff, <- (IH kw Hkw), <- (@lower_ascii_same_letter c d Hd).
    split; [intros H; injection H; tauto | intros [-> ->]; reflexivity].
Qed.

(** A split of the lowered name is the lowering of a split of the name. *)
Lemma lower_split (s x y : string) :
  lower s = x ++ y ->
  exists s1 s2, s = s1 ++ s2 /\ lower s1 = x /\ lower s2 = y.
Proof.
  revert s. induction x as [|c x IH]; intros s H.
  - exists "", s. repeat split. exact H.
  - destruct s as [|c0 s]; [discriminate|]. cbn in H. injection H as Hc H.
    destruct (IH s H) as [s1 [s2 [-> [H1 H2]]]].
    exists (String c0 s1), s2. cbn. rewrite Hc, H1. repeat split. exact H2.
Qed.

(** The test of the code is the search for the three words in any case. *)
Lemma names_closed_state_by_name (status : string) :
  names_closed_state status = true <-> closed_by_name status.
Proof.
  rewrite names_closed_state_iff. unfold closed_by_name. split.
  - intros [kw [a [b [Hkw H]]]].
    destruct (lower_split status a (kw ++ b) H) as [s1 [s2 [-> [_ H2]]]].
    destruct (lower_split s2 kw b H2) as [w [s3 [-> [Hw _]]]].
    exists kw, s1, w, s3. split; [exact Hkw|]. split; [reflexivity|].
    apply lower_same_word; [|exact Hw].
    cbn in Hkw. destruct Hkw as [<-|[<-|[<-|[]]]]; reflexivity.
  - intros [kw [a [w [b [Hkw [-> Hw]]]]]].
    exists kw, (lower a), (lower b). split; [exact Hkw|].
    rewrite !lower_app. do 2 f_equal. apply lower_same_word; [|exact Hw].
    cbn in Hkw. destruct Hkw as [<-|[<-|[<-|[]]]]; reflexivity.
Qed.

(** C6.  When the status name has "closed", "resolved" or "done" somewhere in
    it, in any mix of capital and small letters, [calculate_open_duration]
    returns the time from creation to last update in days: the difference of
    the two instants in microseconds over the 86 400 000 000 microseconds of a
    day, in exact arithmetic.  For every other status name it returns [None].
    Which of the two it is does not depend on the arithmetic. *)
Theorem open_duration_iff_closed (parse : string -> datetime) (issue : Issue) :
  ((closed_by_name (status_name issue)
    /\ calculate_open_duration (F := Qc) parse issue
       = Some (Q2Qc (((wall (parse (updated issue))
                       - utcoffset (parse (updated issue)))
                      - (wall (parse (created issue))
                         - utcoffset (parse (created issue))))
                     # 86400000000)))
   \/ (~ closed_by_name (status_name issue)
       /\ calculate_open_duration (F := Qc) parse issue = None))
  /\ forall (F : Type) (PF : PyFloat F),
       calculate_open_duration (F := F) parse issue <> None
       <-> closed_by_name (status_name issue).
Proof.
  split.
  - rewrite calculate_open_duration_eq, <- names_closed_state_by_name.
    destruct (names_closed_state (status_name issue)).
    + left. split; [reflexivity|]. now rewrite in_days_exact.
    + right. split; [discriminate | reflexivity].
  - intros F PF. rewrite calculate_open_duration_eq, <- names_closed_state_by_name.
    destruct (names_closed_state (status_name issue)); split;
      congruence || discriminate.
Qed.

(** The letters may be of any case, and the duration is in days. *)
Example open_duration_any_case :
  calculate_open_duration (F := float) Iso8601.parse (with_status "ReSOLved late" X)
  = Some 9%float
  /\ calculate_open_duration (F := float) Iso8601.parse (with_status "Reopened" X)
     = None.
Proof. split; vm_compute; reflexivity. Qed.
